(** * Everhour dashboard: synchronisation and mutation core of [App.js]

    A shallow embedding of the [Dashboard] component of
    [frontend/src/App.js]: the hook state, the async handlers
    ([fetchData], [addEmployee], [updateEmployee], [deleteEmployee],
    [updateConfig], [triggerUpdate]), the polling effect and the click
    handlers of the employee table, run on a single-threaded event loop
    whose suspension points are the [await]s of the source. *)

From Stdlib Require Import QArith Ascii.
From stdpp Require Import base list strings pretty.

Local Open Scope string_scope.
Local Open Scope list_scope.

(** ** Payloads

    The component never inspects a payload beyond the fields named
    below, so a decoded JSON body is modelled by the record the code
    reads from it.  A JS [number] is carried as a rational: the core
    stores and forwards numbers, it never computes with them. *)

Definition number := Q.
Definition EmployeeId := string.

(** The body of [GET /api/stats]; a field is [None] when it is absent
    (or [null]) in the payload. *)
Record StatsData := {
  sd_total_employees : option number;
  sd_active_employees : option number;
  sd_last_run : option string;
  sd_next_run : option string;
  sd_total_hours_added_this_week : option number;
  sd_total_hours_added_this_month : option number
}.

(** The [stats] hook state (lines 8-15). *)
Record Stats := {
  total_employees : number;
  active_employees : number;
  last_run : option string;
  next_run : option string;
  total_hours_added_this_week : number;
  total_hours_added_this_month : number
}.

Record Employee := {
  id : EmployeeId;
  name : string;
  email : option string;
  multiplier : number;
  active : bool
}.

Record Config := {
  run_hour : Z;
  run_minute : Z;
  dry_run : bool
}.

Record LogEntry := {
  log_id : string;
  created_at : string;
  employee_name : string;
  original_hours : number;
  updated_hours : number;
  status : string
}.

(** The body of a non-2xx answer of a write endpoint: [{detail}]. *)
Record ErrorBody := { detail : option string }.

(** The object passed to [updateEmployee] and sent as the PATCH body. *)
Record Updates := {
  upd_multiplier : option number;
  upd_active : option bool
}.

(** ** JS truthiness, for the [x || d] defaults *)

Definition falsy_number (q : number) : bool := (Qnum q =? 0)%Z.
Definition falsy_string (s : string) : bool :=
  match s with EmptyString => true | _ => false end.

(** [x || 0] on a numeric field. *)
Definition or_zero (x : option number) : number :=
  match x with
  | Some q => if falsy_number q then 0%Q else q
  | None => 0%Q
  end.

(** [x || null] on a timestamp field. *)
Definition or_null (x : option string) : option string :=
  match x with
  | Some s => if falsy_string s then None else Some s
  | None => None
  end.

(** [x || d] on a string field. *)
Definition or_string (x : option string) (d : string) : string :=
  match x with
  | Some s => if falsy_string s then d else s
  | None => d
  end.

(** The object literal given to [setStats] (lines 42-49). *)
Definition stats_of_data (statsData : StatsData) : Stats := {|
  total_employees := or_zero (sd_total_employees statsData);
  active_employees := or_zero (sd_active_employees statsData);
  last_run := or_null (sd_last_run statsData);
  next_run := or_null (sd_next_run statsData);
  total_hours_added_this_week := or_zero (sd_total_hours_added_this_week statsData);
  total_hours_added_this_month := or_zero (sd_total_hours_added_this_month statsData)
|}.

(** ** Requests and responses *)

Inductive Method := GET | POST | PATCH | DELETE | PUT.

Inductive Endpoint :=
| ApiStats
| ApiEmployees
| ApiEmployee (id : EmployeeId)
| ApiConfig
| ApiLogs (limit : nat)
| ApiTriggerUpdate.

Inductive Header := Authorization | ContentTypeJson.

Inductive Body :=
| NoBody
| EmployeeIdBody (employee_id : string)
| UpdatesBody (updates : Updates)
| ConfigBody (newConfig : Config).

Record Request := {
  method : Method;
  endpoint : Endpoint;
  headers : list Header;
  body : Body
}.

(** A response that was obtained: [ok] is the 2xx flag, [json] what
    [await res.json()] yields, [None] when that promise rejects. *)
Record Response (A : Type) := {
  ok : bool;
  json : option A
}.
Arguments ok {A} _.
Arguments json {A} _.

(** How the promise of one [fetch] settles. *)
Inductive Outcome (A : Type) :=
| Rejected
| Resolved (res : Response A).
Arguments Rejected {A}.
Arguments Resolved {A} res.

(** The four reads of one cycle, in the order of the [Promise.all] array. *)
Record Reads := {
  statsOut : Outcome StatsData;
  employeesOut : Outcome (list Employee);
  configOut : Outcome Config;
  logsOut : Outcome (list LogEntry)
}.

Record Responses := {
  statsRes : Response StatsData;
  employeesRes : Response (list Employee);
  configRes : Response Config;
  logsRes : Response (list LogEntry)
}.

(** [Promise.all]: rejects as soon as one member rejects. *)
Definition promise_all (o : Reads) : option Responses :=
  match statsOut o, employeesOut o, configOut o, logsOut o with
  | Resolved s, Resolved e, Resolved c, Resolved l =>
      Some {| statsRes := s; employeesRes := e; configRes := c; logsRes := l |}
  | _, _, _, _ => None
  end.

(** ** Hook state of the component (lines 8-23) *)

Record State := {
  stats : Stats;
  employees : list Employee;
  config : option Config;
  logs : list LogEntry;
  loading : bool;
  activeTab : string;
  showAddEmployee : bool;
  newEmployeeId : string;
  editingEmployee : option EmployeeId
}.

Definition initial_state : State := {|
  stats := {| total_employees := 0%Q; active_employees := 0%Q;
              last_run := None; next_run := None;
              total_hours_added_this_week := 0%Q;
              total_hours_added_this_month := 0%Q |};
  employees := [];
  config := None;
  logs := [];
  loading := true;
  activeTab := "overview";
  showAddEmployee := false;
  newEmployeeId := "";
  editingEmployee := None
|}.

(** The Snapshot of the specification: the four server-owned slices. *)
Record Snapshot := {
  snap_stats : Stats;
  snap_employees : list Employee;
  snap_config : option Config;
  snap_logs : list LogEntry
}.

Definition snapshot (st : State) : Snapshot := {|
  snap_stats := stats st;
  snap_employees := employees st;
  snap_config := config st;
  snap_logs := logs st
|}.

(** ** Effects and programs

    An async function is a finite tree of synchronous actions and
    suspension points.  [try]/[catch] is resolved structurally: where a
    promise can reject, the continuation branches into the [catch]
    block of the enclosing function. *)

(** What the component does to the outside world, in order. *)
Inductive Effect :=
| EFetch (req : Request)                   (* fetch(url, init) is called *)
| EConfirm (message : string) (answer : bool)  (* window.confirm *)
| EAlert (message : string)                (* alert *)
| EConsoleError (message : string)         (* console.error *)
| ESetInterval (ms : Z)
| EClearInterval.

Inductive Action :=
| SetStats (v : Stats)
| SetEmployees (v : list Employee)
| SetConfig (v : option Config)
| SetLogs (v : list LogEntry)
| SetLoading (v : bool)
| SetActiveTab (v : string)
| SetShowAddEmployee (v : bool)
| SetNewEmployeeId (v : string)
| SetEditingEmployee (v : option EmployeeId)
| Fetch (req : Request)
| Alert (message : string)
| ConsoleError (message : string)
| SetInterval (ms : Z)
| ClearInterval.

Inductive Prog :=
| Done
| Do (a : Action) (k : Prog)
| Confirm (message : string) (k : bool -> Prog)   (* blocking, not a suspension *)
| AwaitAll (k : Reads -> Prog)                    (* await Promise.all([...]) *)
| AwaitFetch (k : Outcome ErrorBody -> Prog)      (* await fetch(...) of a write *)
| AwaitJson (k : Prog)                            (* await res.json() *)
| Call (callee : Prog) (k : Prog).                (* f() without await *)

Declare Scope prog_scope.
Delimit Scope prog_scope with prog.
Bind Scope prog_scope with Prog.
Notation "a ;; k" := (Do a k) (at level 100, k at level 200, right associativity) : prog_scope.
Local Open Scope prog_scope.

(** [const v = await res.json(); k v], inside a [try] whose [catch]
    block is [handler]. *)
Definition await_json {A} (res : Response A) (k : A -> Prog) (handler : Prog) : Prog :=
  AwaitJson (match json res with Some v => k v | None => handler end).

(** ** The event loop *)

Record Machine := {
  ui : State;
  pending : list Prog;       (* suspended async calls, oldest first *)
  log : list Effect;         (* effects so far, oldest first *)
  interval : option Z        (* the timer of [setInterval], if armed *)
}.

Definition set_ui (f : State -> State) (m : Machine) : Machine :=
  {| ui := f (ui m); pending := pending m; log := log m; interval := interval m |}.

Definition emit (e : Effect) (m : Machine) : Machine :=
  {| ui := ui m; pending := pending m; log := log m ++ [e]; interval := interval m |}.

Definition set_interval (t : option Z) (m : Machine) : Machine :=
  {| ui := ui m; pending := pending m; log := log m; interval := t |}.

Definition suspend (p : Prog) (m : Machine) : Machine :=
  {| ui := ui m; pending := pending m ++ [p]; log := log m; interval := interval m |}.

Definition set_pending (ps : list Prog) (m : Machine) : Machine :=
  {| ui := ui m; pending := ps; log := log m; interval := interval m |}.

Definition with_stats v (st : State) : State :=
  {| stats := v; employees := employees st; config := config st; logs := logs st;
     loading := loading st; activeTab := activeTab st;
     showAddEmployee := showAddEmployee st; newEmployeeId := newEmployeeId st;
     editingEmployee := editingEmployee st |}.
Definition with_employees v (st : State) : State :=
  {| stats := stats st; employees := v; config := config st; logs := logs st;
     loading := loading st; activeTab := activeTab st;
     showAddEmployee := showAddEmployee st; newEmployeeId := newEmployeeId st;
     editingEmployee := editingEmployee st |}.
Definition with_config v (st : State) : State :=
  {| stats := stats st; employees := employees st; config := v; logs := logs st;
     loading := loading st; activeTab := activeTab st;
     showAddEmployee := showAddEmployee st; newEmployeeId := newEmployeeId st;
     editingEmployee := editingEmployee st |}.
Definition with_logs v (st : State) : State :=
  {| stats := stats st; employees := employees st; config := config st; logs := v;
     loading := loading st; activeTab := activeTab st;
     showAddEmployee := showAddEmployee st; newEmployeeId := newEmployeeId st;
     editingEmployee := editingEmployee st |}.
Definition with_loading v (st : State) : State :=
  {| stats := stats st; employees := employees st; config := config st; logs := logs st;
     loading := v; activeTab := activeTab st;
     showAddEmployee := showAddEmployee st; newEmployeeId := newEmployeeId st;
     editingEmployee := editingEmployee st |}.
Definition with_activeTab v (st : State) : State :=
  {| stats := stats st; employees := employees st; config := config st; logs := logs st;
     loading := loading st; activeTab := v;
     showAddEmployee := showAddEmployee st; newEmployeeId := newEmployeeId st;
     editingEmployee := editingEmployee st |}.
Definition with_showAddEmployee v (st : State) : State :=
  {| stats := stats st; employees := employees st; config := config st; logs := logs st;
     loading := loading st; activeTab := activeTab st;
     showAddEmployee := v; newEmployeeId := newEmployeeId st;
     editingEmployee := editingEmployee st |}.
Definition with_newEmployeeId v (st : State) : State :=
  {| stats := stats st; employees := employees st; config := config st; logs := logs st;
     loading := loading st; activeTab := activeTab st;
     showAddEmployee := showAddEmployee st; newEmployeeId := v;
     editingEmployee := editingEmployee st |}.
Definition with_editingEmployee v (st : State) : State :=
  {| stats := stats st; employees := employees st; config := config st; logs := logs st;
     loading := loading st; activeTab := activeTab st;
     showAddEmployee := showAddEmployee st; newEmployeeId := newEmployeeId st;
     editingEmployee := v |}.

(** One synchronous action.  A hook setter replaces its slice. *)
Definition perform (a : Action) (m : Machine) : Machine :=
  match a with
  | SetStats v => set_ui (with_stats v) m
  | SetEmployees v => set_ui (with_employees v) m
  | SetConfig v => set_ui (with_config v) m
  | SetLogs v => set_ui (with_logs v) m
  | SetLoading v => set_ui (with_loading v) m
  | SetActiveTab v => set_ui (with_activeTab v) m
  | SetShowAddEmployee v => set_ui (with_showAddEmployee v) m
  | SetNewEmployeeId v => set_ui (with_newEmployeeId v) m
  | SetEditingEmployee v => set_ui (with_editingEmployee v) m
  | Fetch req => emit (EFetch req) m
  | Alert msg => emit (EAlert msg) m
  | ConsoleError msg => emit (EConsoleError msg) m
  | SetInterval ms => set_interval (Some ms) (emit (ESetInterval ms) m)
  | ClearInterval => set_interval None (emit EClearInterval m)
  end.

(** Runs [p] until it finishes or reaches its first suspension point,
    where the rest of it is parked in [pending].  [operator] answers
    [window.confirm].  An un-awaited call runs the callee up to its own
    first suspension and then goes on with the caller. *)
Fixpoint run (operator : string -> bool) (p : Prog) (m : Machine) : Machine :=
  match p with
  | Done => m
  | Do a k => run operator k (perform a m)
  | Confirm msg k =>
      let answer := operator msg in
      run operator (k answer) (emit (EConfirm msg answer) m)
  | AwaitAll _ | AwaitFetch _ | AwaitJson _ => suspend p m
  | Call callee k => run operator k (run operator callee m)
  end.

(** What the event loop hands to a suspended call. *)
Inductive Answer :=
| AllSettled (o : Reads)
| FetchSettled (o : Outcome ErrorBody)
| BodyRead.

Definition resume (p : Prog) (a : Answer) : option Prog :=
  match p, a with
  | AwaitAll k, AllSettled o => Some (k o)
  | AwaitFetch k, FetchSettled o => Some (k o)
  | AwaitJson k, BodyRead => Some k
  | _, _ => None
  end.

(** ** The async functions of the component *)

Definition get (e : Endpoint) : Request :=
  {| method := GET; endpoint := e;
     headers := [Authorization; ContentTypeJson]; body := NoBody |}.

(** The [catch] block of [fetchData] (lines 65-68). *)
Definition fetchData_catch : Prog :=
  ConsoleError "Error fetching data:" ;;
  SetLoading false ;;
  Done.

(** [if (res.ok) { set(await res.json()) }] followed by [next], inside
    the [try] of [fetchData]. *)
Definition when_ok {A} (res : Response A) (set : A -> Action) (next : Prog) : Prog :=
  if ok res
  then await_json res (fun v => set v ;; next) fetchData_catch
  else next.

(** Lines 40-64 of [fetchData]: the four responses are applied one
    after the other, each behind its own [await res.json()]. *)
Definition fetchData_apply (r : Responses) : Prog :=
  when_ok (statsRes r) (fun statsData => SetStats (stats_of_data statsData))
 (when_ok (employeesRes r) SetEmployees
 (when_ok (configRes r) (fun c => SetConfig (Some c))
 (when_ok (logsRes r) SetLogs
 (SetLoading false ;; Done)))).

(** What follows [await Promise.all([...])]. *)
Definition fetchData_settled (settled : Reads) : Prog :=
  match promise_all settled with
  | None => fetchData_catch
  | Some r => fetchData_apply r
  end.

(** [fetchData] (lines 26-69). *)
Definition fetchData : Prog :=
  Fetch (get ApiStats) ;;
  Fetch (get ApiEmployees) ;;
  Fetch (get ApiConfig) ;;
  Fetch (get (ApiLogs 50)) ;;
  AwaitAll fetchData_settled.

(** The effect of lines 71-75 and its cleanup. *)
Definition poll_interval : Z := 30000.

Definition useEffect_body : Prog :=
  Call fetchData (SetInterval poll_interval ;; Done).

Definition useEffect_cleanup : Prog :=
  ClearInterval ;; Done.

(** The [init] objects of the five writes. *)
Definition post_employee (newEmployeeId : string) : Request :=
  {| method := POST; endpoint := ApiEmployees;
     headers := [Authorization; ContentTypeJson];
     body := EmployeeIdBody newEmployeeId |}.

Definition patch_employee (id : EmployeeId) (updates : Updates) : Request :=
  {| method := PATCH; endpoint := ApiEmployee id;
     headers := [Authorization; ContentTypeJson];
     body := UpdatesBody updates |}.

Definition delete_employee (id : EmployeeId) : Request :=
  {| method := DELETE; endpoint := ApiEmployee id;
     headers := [Authorization]; body := NoBody |}.

Definition put_config (newConfig : Config) : Request :=
  {| method := PUT; endpoint := ApiConfig;
     headers := [Authorization; ContentTypeJson];
     body := ConfigBody newConfig |}.

Definition post_trigger_update : Request :=
  {| method := POST; endpoint := ApiTriggerUpdate;
     headers := [Authorization]; body := NoBody |}.

Definition addEmployee_catch : Prog :=
  ConsoleError "Error adding employee:" ;;
  Alert "Błąd połączenia z serwerem." ;;
  Done.

(** [addEmployee] (lines 78-101); [newEmployeeId] is the value of the
    hook state captured by the render that created the handler. *)
Definition addEmployee (newEmployeeId : string) : Prog :=
  Fetch (post_employee newEmployeeId) ;;
  AwaitFetch (fun settled =>
    match settled with
    | Rejected => addEmployee_catch
    | Resolved response =>
        if ok response then
          SetShowAddEmployee false ;;
          SetNewEmployeeId "" ;;
          Call fetchData Done
        else
          await_json response
            (fun error =>
               Alert ("Nie można dodać pracownika: "
                        ++ or_string (detail error) "Sprawdź ID.") ;;
               Done)
            addEmployee_catch
    end).

(** [updateEmployee] (lines 104-122). *)
Definition updateEmployee (id : EmployeeId) (updates : Updates) : Prog :=
  Fetch (patch_employee id updates) ;;
  AwaitFetch (fun settled =>
    match settled with
    | Rejected => ConsoleError "Error updating employee:" ;; Done
    | Resolved response =>
        if ok response then
          SetEditingEmployee None ;;
          Call fetchData Done
        else Done
    end).

Definition delete_prompt : string := "Czy na pewno chcesz usunąć tego pracownika?".

(** [deleteEmployee] (lines 125-142). *)
Definition deleteEmployee (id : EmployeeId) : Prog :=
  Confirm delete_prompt (fun confirmed =>
    if negb confirmed then Done else
    Fetch (delete_employee id) ;;
    AwaitFetch (fun settled =>
      match settled with
      | Rejected => ConsoleError "Error deleting employee:" ;; Done
      | Resolved response =>
          if ok response then Call fetchData Done else Done
      end)).

(** [updateConfig] (lines 145-163). *)
Definition updateConfig (newConfig : Config) : Prog :=
  Fetch (put_config newConfig) ;;
  AwaitFetch (fun settled =>
    match settled with
    | Rejected => ConsoleError "Error updating config:" ;; Done
    | Resolved response =>
        if ok response then
          Call fetchData (Alert "Konfiguracja zaktualizowana!" ;; Done)
        else Done
    end).

Definition trigger_prompt : string := "Czy na pewno chcesz ręcznie uruchomić aktualizację?".

(** [triggerUpdate] (lines 166-183).  No element of the JSX is bound
    to it, so it has no [UIEvent] below. *)
Definition triggerUpdate : Prog :=
  Confirm trigger_prompt (fun confirmed =>
    if negb confirmed then Done else
    Fetch post_trigger_update ;;
    AwaitFetch (fun settled =>
      match settled with
      | Rejected => ConsoleError "Error triggering update:" ;; Done
      | Resolved response =>
          if ok response then Alert "Aktualizacja została uruchomiona!" ;; Done
          else Done
      end)).

(** ** The event handlers bound in the JSX *)

Inductive UIEvent :=
| SelectTab (tab : string)                      (* line 216 *)
| OpenAddForm                                   (* line 309 *)
| TypeNewEmployeeId (value : string)            (* line 325 *)
| SubmitAddForm                                 (* line 329 *)
| CancelAddForm                                 (* lines 335-338 *)
| SaveMultiplier (employee : Employee) (multiplier : number)  (* lines 404-407 *)
| CancelEdit                                    (* line 413 *)
| BeginEdit (employee : Employee)               (* line 422 *)
| ToggleActive (employee : Employee)            (* line 428 *)
| ClickDelete (employee : Employee)             (* line 434 *)
| SubmitConfig (newConfig : Config).            (* lines 518-526 *)

(** The handler an event runs; [st] is the state the handler's closure
    was rendered from. *)
Definition on_event (st : State) (ev : UIEvent) : Prog :=
  match ev with
  | SelectTab tab => SetActiveTab tab ;; Done
  | OpenAddForm => SetShowAddEmployee true ;; Done
  | TypeNewEmployeeId value => SetNewEmployeeId value ;; Done
  | SubmitAddForm => addEmployee (newEmployeeId st)
  | CancelAddForm => SetShowAddEmployee false ;; SetNewEmployeeId "" ;; Done
  | SaveMultiplier employee multiplier =>
      updateEmployee (id employee)
        {| upd_multiplier := Some multiplier; upd_active := None |}
  | CancelEdit => SetEditingEmployee None ;; Done
  | BeginEdit employee => SetEditingEmployee (Some (id employee)) ;; Done
  | ToggleActive employee =>
      updateEmployee (id employee)
        {| upd_multiplier := None; upd_active := Some (negb (active employee)) |}
  | ClickDelete employee => deleteEmployee (id employee)
  | SubmitConfig newConfig => updateConfig newConfig
  end.

(** [editingEmployee === employee.id] (lines 379 and 401): the row of
    [employee] shows the multiplier input and the save/cancel buttons. *)
Definition row_in_edit_mode (st : State) (employee : Employee) : bool :=
  match editingEmployee st with
  | Some target => String.eqb target (id employee)
  | None => false
  end.

(** The rows of the employee table that are rendered in edit mode. *)
Definition rows_in_edit_mode (st : State) : list Employee :=
  filter (fun employee => row_in_edit_mode st employee = true) (employees st).

(** ** Steps of the event loop *)

Inductive Label :=
| Mount                             (* the effect runs *)
| Cleanup                           (* the effect's cleanup runs *)
| Tick                              (* the interval fires *)
| UI (ev : UIEvent)                 (* the operator acts on the page *)
| Settle (i : nat) (a : Answer).    (* the promise awaited by call [i] settles *)

Section EventLoop.
Variable operator : string -> bool.

(** Call [i] of [pending] is resumed with [a] and runs to its next
    suspension point. *)
Definition settle (i : nat) (a : Answer) (m : Machine) : option Machine :=
  match pending m !! i with
  | Some p =>
      match resume p a with
      | Some k => Some (run operator k (set_pending (delete i (pending m)) m))
      | None => None
      end
  | None => None
  end.

Definition step (l : Label) (m : Machine) : option Machine :=
  match l with
  | Mount => Some (run operator useEffect_body m)
  | Cleanup => Some (run operator useEffect_cleanup m)
  | Tick =>
      match interval m with
      | Some _ => Some (run operator fetchData m)
      | None => None
      end
  | UI ev => Some (run operator (on_event (ui m) ev) m)
  | Settle i a => settle i a m
  end.

Fixpoint exec (ls : list Label) (m : Machine) : option Machine :=
  match ls with
  | [] => Some m
  | l :: ls' =>
      match step l m with
      | Some m' => exec ls' m'
      | None => None
      end
  end.

(** Up to [n] body reads of call [i], stopping when it is gone. *)
Fixpoint read_bodies (n : nat) (i : nat) (m : Machine) : Machine :=
  match n with
  | O => m
  | S n' =>
      match settle i BodyRead m with
      | Some m' => read_bodies n' i m'
      | None => m
      end
  end.

(** One fetch cycle run on its own, observed after [n] of its body
    reads: [fetchData] is called, its four reads settle as [o], and
    [n] body reads follow with nothing else scheduled in between. *)
Definition cycle_prefix (n : nat) (o : Reads) (m : Machine) : option Machine :=
  let i := length (pending m) in
  match settle i (AllSettled o) (run operator fetchData m) with
  | Some m' => Some (read_bodies n i m')
  | None => None
  end.

(** The whole cycle: at most four bodies are read. *)
Definition cycle (o : Reads) (m : Machine) : option Machine :=
  cycle_prefix 4 o m.
End EventLoop.

Definition boot : Machine :=
  {| ui := initial_state; pending := []; log := []; interval := None |}.

(** ** Observations on the effect log *)

(** The endpoints read with GET, in the order the requests were issued. *)
Fixpoint reads_of (l : list Effect) : list Endpoint :=
  match l with
  | [] => []
  | EFetch {| method := GET; endpoint := e |} :: l' => e :: reads_of l'
  | _ :: l' => reads_of l'
  end.

(** The requests issued, in order. *)
Fixpoint requests_of (l : list Effect) : list Request :=
  match l with
  | [] => []
  | EFetch req :: l' => req :: requests_of l'
  | _ :: l' => requests_of l'
  end.

(** The messages shown to the operator with [alert], in order. *)
Fixpoint alerts_of (l : list Effect) : list string :=
  match l with
  | [] => []
  | EAlert msg :: l' => msg :: alerts_of l'
  | _ :: l' => alerts_of l'
  end.

(** The reads one call of [fetchData] issues. *)
Definition cycle_reads : list Endpoint :=
  [ApiStats; ApiEmployees; ApiConfig; ApiLogs 50].

(** A successful response carrying [v]. *)
Definition success {A} (v : A) : Response A := {| ok := true; json := Some v |}.

(** A response with a non-success status and no readable body. *)
Definition failure {A} : Response A := {| ok := false; json := None |}.

(** A cycle in which all four reads succeed. *)
Definition all_succeed (sd : StatsData) (es : list Employee) (c : Config)
    (ls : list LogEntry) : Reads :=
  {| statsOut := Resolved (success sd); employeesOut := Resolved (success es);
     configOut := Resolved (success c); logsOut := Resolved (success ls) |}.

Definition settled_as (r : Responses) : Reads :=
  {| statsOut := Resolved (statsRes r); employeesOut := Resolved (employeesRes r);
     configOut := Resolved (configRes r); logsOut := Resolved (logsRes r) |}.

(** ** Vocabulary of the statements *)

(** The number of reads of the cycle that came back with a
    non-success status. *)
Definition failed_reads (r : Responses) : nat :=
  Nat.b2n (negb (ok (statsRes r))) + Nat.b2n (negb (ok (employeesRes r)))
  + Nat.b2n (negb (ok (configRes r))) + Nat.b2n (negb (ok (logsRes r))).

(** A read that succeeded delivers a body. *)
Definition readable {A} (res : Response A) : Prop :=
  ok res = true -> is_Some (json res).

(** The slice behind [res] after the cycle: the value fetched when
    the read succeeded, the value from before the cycle otherwise. *)
Definition slice_after {A B} (res : Response A) (store : A -> B) (before after : B) : Prop :=
  if ok res
  then exists v, json res = Some v /\ after = store v
  else after = before.

(** A numeric field of the stats payload against the number the page
    holds for it: the fetched number itself, and 0 only when the
    field is absent, null or zero. *)
Definition number_reaches (fetched : option number) (shown : number) : Prop :=
  match fetched with
  | Some q => (Qnum q <> 0%Z -> shown = q) /\ (Qnum q = 0%Z -> shown = 0%Q)
  | None => shown = 0%Q
  end.

(** A timestamp field of the stats payload against what the page
    holds for it: the fetched string itself, and [null] only when the
    field is absent, null or empty. *)
Definition timestamp_reaches (fetched shown : option string) : Prop :=
  match fetched with
  | Some s => (s <> "" -> shown = Some s) /\ (s = "" -> shown = None)
  | None => shown = None
  end.

(** Every field of the payload [d] has reached the stats [s]. *)
Definition stats_reach (d : StatsData) (s : Stats) : Prop :=
  number_reaches (sd_total_employees d) (total_employees s) /\
  number_reaches (sd_active_employees d) (active_employees s) /\
  timestamp_reaches (sd_last_run d) (last_run s) /\
  timestamp_reaches (sd_next_run d) (next_run s) /\
  number_reaches (sd_total_hours_added_this_week d) (total_hours_added_this_week s) /\
  number_reaches (sd_total_hours_added_this_month d) (total_hours_added_this_month s).

(** The five write operations of the component. *)
Inductive Write :=
| AddEmployee (externalId : string)
| PatchEmployee (id : EmployeeId) (updates : Updates)
| DeleteEmployee (id : EmployeeId)
| PutConfig (newConfig : Config)
| TriggerRun.

Definition write_handler (w : Write) : Prog :=
  match w with
  | AddEmployee externalId => addEmployee externalId
  | PatchEmployee id updates => updateEmployee id updates
  | DeleteEmployee id => deleteEmployee id
  | PutConfig newConfig => updateConfig newConfig
  | TriggerRun => triggerUpdate
  end.

Definition write_request (w : Write) : Request :=
  match w with
  | AddEmployee externalId => post_employee externalId
  | PatchEmployee id updates => patch_employee id updates
  | DeleteEmployee id => delete_employee id
  | PutConfig newConfig => put_config newConfig
  | TriggerRun => post_trigger_update
  end.

(** The suspended call a running cycle leaves in [pending]. *)
Definition fetchData_suspended : Prog := AwaitAll fetchData_settled.

(** An operator who accepts, respectively declines, every prompt. *)
Definition accepts : string -> bool := fun _ => true.
Definition declines : string -> bool := fun _ => false.

(** A destructive handler [p] asks the operator first: the prompt is
    its first effect; when the answer is yes the request follows the
    prompt; when the answer is no the prompt is all that happened. *)
Definition asks_first (operator : string -> bool) (p : Prog)
    (prompt : string) (request : Request) (m : Machine) : Prop :=
  (exists rest,
     log (run operator p m) = log m ++ EConfirm prompt (operator prompt) :: rest) /\
  (operator prompt = true ->
   log (run operator p m) = log m ++ [EConfirm prompt true; EFetch request]) /\
  (operator prompt = false ->
   run operator p m = emit (EConfirm prompt false) m).

(** [p] never calls [setInterval]. *)
Fixpoint timer_free (p : Prog) : Prop :=
  match p with
  | Done => True
  | Do (SetInterval _) _ => False
  | Do _ k => timer_free k
  | Confirm _ k => forall answer, timer_free (k answer)
  | AwaitAll k => forall settled, timer_free (k settled)
  | AwaitFetch k => forall settled, timer_free (k settled)
  | AwaitJson k => timer_free k
  | Call callee k => timer_free callee /\ timer_free k
  end.

(** The Snapshot seen after [k] body reads of a cycle that delivers
    [new] over [old]: the first [k] slices, in the order stats,
    employees, config, logs, are the new ones. *)
Definition snapshot_after (k : nat) (new old : Snapshot) : Snapshot :=
  {| snap_stats := if Nat.leb 1 k then snap_stats new else snap_stats old;
     snap_employees := if Nat.leb 2 k then snap_employees new else snap_employees old;
     snap_config := if Nat.leb 3 k then snap_config new else snap_config old;
     snap_logs := if Nat.leb 4 k then snap_logs new else snap_logs old |}.

(** What a cycle delivers when its four reads succeed. *)
Definition delivered (sd : StatsData) (es : list Employee) (c : Config)
    (ls : list LogEntry) : Snapshot :=
  {| snap_stats := stats_of_data sd; snap_employees := es;
     snap_config := Some c; snap_logs := ls |}.

(** What an observer reads off the page, or off the effect log, at
    the end of a run. *)
Definition observe {A} (f : State -> A) (r : option Machine) : option A :=
  match r with Some m => Some (f (ui m)) | None => None end.

Definition logged {A} (f : list Effect -> A) (r : option Machine) : option A :=
  match r with Some m => Some (f (log m)) | None => None end.

Definition parked (r : option Machine) : option nat :=
  match r with Some m => Some (length (pending m)) | None => None end.

(** The calls the code makes.  [calls operator p] lists, in order, the
    actions [p] performs when it is run up to its first suspension
    point: the setter calls with their arguments, the [fetch] calls,
    the alerts, the console messages and the timer calls. *)
Fixpoint calls (operator : string -> bool) (p : Prog) : list Action :=
  match p with
  | Done => []
  | Do a k => a :: calls operator k
  | Confirm msg k => calls operator (k (operator msg))
  | AwaitAll _ | AwaitFetch _ | AwaitJson _ => []
  | Call callee k => calls operator callee ++ calls operator k
  end.

(** The calls made during one step of the event loop. *)
Definition step_calls (operator : string -> bool) (l : Label) (m : Machine) : list Action :=
  match l with
  | Mount => calls operator useEffect_body
  | Cleanup => calls operator useEffect_cleanup
  | Tick =>
      match interval m with
      | Some _ => calls operator fetchData
      | None => []
      end
  | UI ev => calls operator (on_event (ui m) ev)
  | Settle i a =>
      match pending m !! i with
      | Some p =>
          match resume p a with
          | Some k => calls operator k
          | None => []
          end
      | None => []
      end
  end.

(** The calls made during a run, in order; [None] when the run is not
    possible. *)
Fixpoint exec_calls (operator : string -> bool) (ls : list Label) (m : Machine)
    : option (list Action) :=
  match ls with
  | [] => Some []
  | l :: ls' =>
      match step operator l m with
      | Some m' =>
          match exec_calls operator ls' m' with
          | Some cs => Some (step_calls operator l m ++ cs)
          | None => None
          end
      | None => None
      end
  end.

(** The step resumes a call that was in flight. *)
Definition is_settle (l : Label) : bool :=
  match l with Settle _ _ => true | _ => false end.

(** ** Sample inputs *)

Definition sample_config : Config :=
  {| run_hour := 6; run_minute := 30; dry_run := true |}.

Definition sample_stats : StatsData :=
  {| sd_total_employees := Some 7%Q; sd_active_employees := Some 5%Q;
     sd_last_run := Some "2024-05-01T06:30:00"; sd_next_run := None;
     sd_total_hours_added_this_week := Some (5 # 2)%Q;
     sd_total_hours_added_this_month := None |}.

Definition sample_responses : Responses :=
  {| statsRes := success sample_stats;
     employeesRes := failure;
     configRes := success sample_config;
     logsRes := success [] |}.

(** A 2xx answer of a write endpoint; the handlers do not read its body. *)
Definition accepted : Response ErrorBody := {| ok := true; json := None |}.

(** A non-2xx answer of a write endpoint carrying [{detail: d}]. *)
Definition refused (d : string) : Response ErrorBody :=
  {| ok := false; json := Some {| detail := Some d |} |}.

Definition emp_a : Employee :=
  {| id := "emp-a"; name := "Ada"; email := None; multiplier := (7 # 2)%Q; active := true |}.

Definition emp_b : Employee :=
  {| id := "emp-b"; name := "Bob"; email := Some "bob@example.org";
     multiplier := 1%Q; active := false |}.

(** The page after a first cycle delivered the employee list
    [emp_a; emp_b] and the operator pressed the edit button of
    [emp_a] (see [editing_a_is_reachable]). *)
Definition editing_a : Machine :=
  {| ui := with_editingEmployee (Some "emp-a")
             (with_employees [emp_a; emp_b] (with_loading false initial_state));
     pending := []; log := []; interval := Some poll_interval |}.

Definition other_stats : StatsData :=
  {| sd_total_employees := Some 9%Q; sd_active_employees := Some 8%Q;
     sd_last_run := Some "2024-05-02T06:30:00"; sd_next_run := Some "2024-05-03T06:30:00";
     sd_total_hours_added_this_week := Some 4%Q;
     sd_total_hours_added_this_month := Some 12%Q |}.

Definition other_config : Config :=
  {| run_hour := 7; run_minute := 0; dry_run := false |}.

Definition sample_log : LogEntry :=
  {| log_id := "log-1"; created_at := "2024-05-02T06:30:04"; employee_name := "Ada";
     original_hours := 2%Q; updated_hours := 7%Q; status := "success" |}.

(** ** Configuration and the wire format of a request (lines 4-5, 28-37)

    [process.env] is read once, when the module is loaded; a variable
    that is not set is [None]. *)

(** [s.replace(/\/$/, '')]: without the [g] and [m] flags the pattern
    matches once, at the very end of [s]. *)
Fixpoint strip_trailing_slash (s : string) : string :=
  match s with
  | EmptyString => EmptyString
  | String c EmptyString => if Ascii.eqb c "/"%char then EmptyString else s
  | String c rest => String c (strip_trailing_slash rest)
  end.

(** Line 4. *)
Definition API_URL (REACT_APP_API_URL : option string) : string :=
  strip_trailing_slash (or_string REACT_APP_API_URL "http://localhost:8000").

(** Line 5. *)
Definition API_TOKEN (REACT_APP_API_TOKEN : option string) : string :=
  or_string REACT_APP_API_TOKEN "your-secret-key".

(** The part of the URL after [${API_URL}]. *)
Definition path (e : Endpoint) : string :=
  match e with
  | ApiStats => "/api/stats"
  | ApiEmployees => "/api/employees"
  | ApiEmployee id => "/api/employees/" ++ id
  | ApiConfig => "/api/config"
  | ApiLogs limit => "/api/logs?limit=" ++ pretty limit
  | ApiTriggerUpdate => "/api/trigger-update"
  end.

Definition url (api_url : string) (e : Endpoint) : string := api_url ++ path e.

(** An entry of the [headers] object. *)
Definition header_entry (api_token : string) (h : Header) : string * string :=
  match h with
  | Authorization => ("Authorization", ("Bearer " ++ api_token)%string)
  | ContentTypeJson => ("Content-Type", "application/json")
  end.

(** [s] ends with a slash. *)
Fixpoint ends_with_slash (s : string) : bool :=
  match s with
  | EmptyString => false
  | String c EmptyString => Ascii.eqb c "/"%char
  | String _ rest => ends_with_slash rest
  end.

(** ** Vocabulary of the further statements *)

(** The messages written with [console.error], in order. *)
Fixpoint errors_of (l : list Effect) : list string :=
  match l with
  | [] => []
  | EConsoleError msg :: l' => msg :: errors_of l'
  | _ :: l' => errors_of l'
  end.

(** The first argument of the [console.error] in the [catch] block of
    each write handler. *)
Definition catch_message (w : Write) : string :=
  match w with
  | AddEmployee _ => "Error adding employee:"
  | PatchEmployee _ _ => "Error updating employee:"
  | DeleteEmployee _ => "Error deleting employee:"
  | PutConfig _ => "Error updating config:"
  | TriggerRun => "Error triggering update:"
  end.

(** A read that came back with a success status and a body that
    [res.json()] rejects. *)
Definition unreadable {A} (res : Response A) : bool :=
  ok res && match json res with Some _ => false | None => true end.

(** Every action [p] can ever perform satisfies [P], whatever the
    operator and the network answer. *)
Fixpoint every_action (P : Action -> Prop) (p : Prog) : Prop :=
  match p with
  | Done => True
  | Do a k => P a /\ every_action P k
  | Confirm _ k => forall answer, every_action P (k answer)
  | AwaitAll k => forall settled, every_action P (k settled)
  | AwaitFetch k => forall settled, every_action P (k settled)
  | AwaitJson k => every_action P k
  | Call callee k => every_action P callee /\ every_action P k
  end.

Definition Header_eqb (h h' : Header) : bool :=
  match h, h' with
  | Authorization, Authorization | ContentTypeJson, ContentTypeJson => true
  | _, _ => false
  end.

(** The [headers] object of [req] has exactly the entries [hs]. *)
Fixpoint same_headers (l hs : list Header) : bool :=
  match l, hs with
  | [], [] => true
  | h :: l', h' :: hs' => Header_eqb h h' && same_headers l' hs'
  | _, _ => false
  end.

Definition has_headers (req : Request) (hs : list Header) : bool :=
  same_headers (headers req) hs.

(** The requests the page can issue: the four reads of a cycle (logs
    with limit 50), and the writes bound to an element of the JSX with
    the headers and the body their handler gives them.  A PATCH
    carries either a multiplier (save button) or an active flag
    (toggle button), never both and never neither. *)
Definition ui_request (req : Request) : bool :=
  match method req, endpoint req, body req with
  | GET, (ApiStats | ApiEmployees | ApiConfig), NoBody =>
      has_headers req [Authorization; ContentTypeJson]
  | GET, ApiLogs limit, NoBody =>
      Nat.eqb limit 50 && has_headers req [Authorization; ContentTypeJson]
  | POST, ApiEmployees, EmployeeIdBody _ =>
      has_headers req [Authorization; ContentTypeJson]
  | PATCH, ApiEmployee _, UpdatesBody updates =>
      has_headers req [Authorization; ContentTypeJson] &&
      match upd_multiplier updates, upd_active updates with
      | Some _, None | None, Some _ => true
      | _, _ => false
      end
  | DELETE, ApiEmployee _, NoBody => has_headers req [Authorization]
  | PUT, ApiConfig, ConfigBody _ =>
      has_headers req [Authorization; ContentTypeJson]
  | _, _, _ => false
  end.

(** The request carries the bearer credential. *)
Definition authorized (req : Request) : bool :=
  existsb (fun h => match h with Authorization => true | _ => false end) (headers req).

(** What the functions of the component keep to, action by action:
    requests are those of [ui_request], the stats written have no
    empty timestamp, [loading] is only ever cleared, and the interval
    is the 30 s one. *)
Definition disciplined (a : Action) : Prop :=
  match a with
  | Fetch req => ui_request req = true
  | SetStats v => last_run v <> Some "" /\ next_run v <> Some ""
  | SetLoading v => v = false
  | SetInterval ms => ms = poll_interval
  | _ => True
  end.

(** The events that are handled without the network. *)
Definition local_event (ev : UIEvent) : bool :=
  match ev with
  | SelectTab _ | OpenAddForm | TypeNewEmployeeId _ | CancelAddForm
  | CancelEdit | BeginEdit _ => true
  | _ => false
  end.

(** The page after the component was mounted with the network down:
    the four reads of the first cycle were rejected. *)
Definition offline_page : Machine :=
  default boot
    (exec accepts
       [Mount;
        Settle 0 (AllSettled {| statsOut := Rejected; employeesOut := Rejected;
                                configOut := Rejected; logsOut := Rejected |})]
       boot).

(** A stats payload whose timestamps are empty strings. *)
Definition blank_stats : StatsData :=
  {| sd_total_employees := Some 2%Q; sd_active_employees := None;
     sd_last_run := Some ""; sd_next_run := Some "";
     sd_total_hours_added_this_week := None;
     sd_total_hours_added_this_month := None |}.

Definition blank_stats_page : Machine :=
  default boot
    (exec accepts
       [Mount; Settle 0 (AllSettled (all_succeed blank_stats [] sample_config []));
        Settle 0 BodyRead]
       boot).

(** [emp_a] after its multiplier was set to 5. *)
Definition emp_a_raised : Employee :=
  {| id := "emp-a"; name := "Ada"; email := None; multiplier := 5%Q; active := true |}.

(** ** Basic facts about the event loop *)

Section Basics.
Variable operator : string -> bool.

Lemma settle_parked p a k i m :
  i = length (pending m) ->
  resume p a = Some k ->
  settle operator i a (suspend p m) = Some (run operator k m).
Proof.
  intros -> Hk. unfold settle, suspend, set_pending; cbn.
  rewrite list_lookup_middle by done. rewrite Hk.
  rewrite delete_middle, app_nil_r. by destruct m.
Qed.

Lemma settle_absent i a m :
  length (pending m) <= i -> settle operator i a m = None.
Proof. intros Hi. unfold settle. by rewrite lookup_ge_None_2. Qed.

Lemma read_bodies_parked n k i m :
  i = length (pending m) ->
  read_bodies operator (S n) i (suspend (AwaitJson k) m)
  = read_bodies operator n i (run operator k m).
Proof. intros Hi. cbn [read_bodies]. by rewrite (settle_parked _ BodyRead k). Qed.

Lemma read_bodies_finished n i m :
  length (pending m) <= i -> read_bodies operator n i m = m.
Proof. intros Hi. destruct n; [done|]. cbn. by rewrite settle_absent. Qed.

Lemma run_fetchData m :
  run operator fetchData m
  = suspend (AwaitAll fetchData_settled)
      (emit (EFetch (get (ApiLogs 50))) (emit (EFetch (get ApiConfig))
        (emit (EFetch (get ApiEmployees)) (emit (EFetch (get ApiStats)) m)))).
Proof. reflexivity. Qed.

Lemma cycle_prefix_eq n o m :
  cycle_prefix operator n o m
  = Some (read_bodies operator n (length (pending m))
      (run operator (fetchData_settled o)
        (emit (EFetch (get (ApiLogs 50))) (emit (EFetch (get ApiConfig))
          (emit (EFetch (get ApiEmployees)) (emit (EFetch (get ApiStats)) m)))))).
Proof.
  unfold cycle_prefix. rewrite run_fetchData.
  by rewrite (settle_parked _ (AllSettled o) (fetchData_settled o)).
Qed.
End Basics.

(** ** The aggregate fetch cycle *)

Section FetchCycle.
Variable operator : string -> bool.

Ltac read_body :=
  rewrite read_bodies_parked by reflexivity; cbn [run perform].

Ltac cycle_done :=
  rewrite read_bodies_finished by (cbn; lia).

Ltac slices :=
  eexists; split; [reflexivity | cbn; repeat split; eauto].

(** C2. A fetch cycle in which at least one of the four reads is
    rejected (no response was obtained) runs the [catch] block only:
    the call is over, [loading] is cleared, and the four slices of
    the Snapshot are the ones from before the cycle. *)
Theorem transport_failure_retains_snapshot (o : Reads) (m : Machine) :
  statsOut o = Rejected \/ employeesOut o = Rejected \/
  configOut o = Rejected \/ logsOut o = Rejected ->
  exists m',
    cycle operator o m = Some m' /\
    snapshot (ui m') = snapshot (ui m) /\
    ui m' = with_loading false (ui m) /\
    pending m' = pending m.
Proof.
  intros Hrej.
  assert (promise_all o = None) as Hall.
  { unfold promise_all.
    destruct Hrej as [-> | [Hr | [Hr | Hr]]]; [done | | |].
    - destruct (statsOut o); [done|]. by rewrite Hr.
    - destruct (statsOut o), (employeesOut o); try done. by rewrite Hr.
    - destruct (statsOut o), (employeesOut o), (configOut o); try done.
      by rewrite Hr. }
  eexists. split.
  - unfold cycle. rewrite cycle_prefix_eq. unfold fetchData_settled.
    rewrite Hall. cbn [run perform fetchData_catch]. cycle_done. reflexivity.
  - by cbn.
Qed.

Lemma or_zero_reaches (x : option number) : number_reaches x (or_zero x).
Proof.
  destruct x as [q|]; [|reflexivity]. cbn. unfold falsy_number.
  destruct (Z.eqb_spec (Qnum q) 0); split; done.
Qed.

Lemma or_null_reaches (x : option string) : timestamp_reaches x (or_null x).
Proof. destruct x as [[|c s]|]; cbn; try done; split; done. Qed.

(** What [setStats] is given (lines 42-49) holds every field of the
    payload: a fetched number or timestamp is stored as it is, and
    only an absent, null, zero or empty field becomes 0 or [null]. *)
Lemma stats_of_data_reach (d : StatsData) : stats_reach d (stats_of_data d).
Proof.
  unfold stats_reach, stats_of_data. cbn.
  repeat split; apply or_zero_reaches || apply or_null_reaches.
Qed.

Lemma partial_failure_slices (r : Responses) (m : Machine) :
  failed_reads r = 1 ->
  readable (statsRes r) -> readable (employeesRes r) ->
  readable (configRes r) -> readable (logsRes r) ->
  exists m',
    cycle operator (settled_as r) m = Some m' /\
    pending m' = pending m /\
    slice_after (statsRes r) stats_of_data (stats (ui m)) (stats (ui m')) /\
    slice_after (employeesRes r) (fun v => v) (employees (ui m)) (employees (ui m')) /\
    slice_after (configRes r) Some (config (ui m)) (config (ui m')) /\
    slice_after (logsRes r) (fun v => v) (logs (ui m)) (logs (ui m')).
Proof.
  destruct r as [[os js] [oe je] [oc jc] [ol jl]].
  unfold failed_reads, readable, slice_after. cbn.
  intros Hone Hs He Hc Hl.
  unfold cycle. rewrite cycle_prefix_eq.
  unfold fetchData_settled, fetchData_apply, when_ok, await_json.
  cbn -[read_bodies].
  destruct os, oe, oc, ol; cbn in Hone; try discriminate Hone.
  - destruct (Hs eq_refl) as [sv ->], (He eq_refl) as [ev ->], (Hc eq_refl) as [cv ->].
    cbn [run perform]. do 3 read_body. cycle_done. slices.
  - destruct (Hs eq_refl) as [sv ->], (He eq_refl) as [ev ->], (Hl eq_refl) as [lv ->].
    cbn [run perform]. do 3 read_body. cycle_done. slices.
  - destruct (Hs eq_refl) as [sv ->], (Hc eq_refl) as [cv ->], (Hl eq_refl) as [lv ->].
    cbn [run perform]. do 3 read_body. cycle_done. slices.
  - destruct (He eq_refl) as [ev ->], (Hc eq_refl) as [cv ->], (Hl eq_refl) as [lv ->].
    cbn [run perform]. do 3 read_body. cycle_done. slices.
Qed.

(** C1. In a fetch cycle where all four reads obtain a response,
    exactly one of them has a non-success status and the other three
    succeed (a success status and a body that [res.json()] delivers),
    the three succeeding slices hold the fetched values
    after the cycle and the fourth slice is the one from before the
    cycle.  For the stats slice the fetched values are spelled out
    field by field: each counter and each timestamp of the payload is
    on the page as it was fetched, and only an absent, null or zero
    counter shows as 0 and an absent, null or empty timestamp as
    [null] (the defaults of [setStats]). *)
Theorem partial_failure_isolation (r : Responses) (m : Machine) :
  failed_reads r = 1 ->
  readable (statsRes r) -> readable (employeesRes r) ->
  readable (configRes r) -> readable (logsRes r) ->
  exists m',
    cycle operator (settled_as r) m = Some m' /\
    pending m' = pending m /\
    slice_after (statsRes r) stats_of_data (stats (ui m)) (stats (ui m')) /\
    slice_after (employeesRes r) (fun v => v) (employees (ui m)) (employees (ui m')) /\
    slice_after (configRes r) Some (config (ui m)) (config (ui m')) /\
    slice_after (logsRes r) (fun v => v) (logs (ui m)) (logs (ui m')) /\
    (forall statsData,
       ok (statsRes r) = true -> json (statsRes r) = Some statsData ->
       stats_reach statsData (stats (ui m'))).
Proof.
  intros Hone Hs He Hc Hl.
  destruct (partial_failure_slices r m Hone Hs He Hc Hl)
    as (m' & Hcycle & Hpending & Hstats & Hemployees & Hconfig & Hlogs).
  exists m'. do 6 (split; [assumption|]).
  intros statsData Hok Hjson. unfold slice_after in Hstats. rewrite Hok in Hstats.
  destruct Hstats as (v & Hv & ->). rewrite Hjson in Hv. injection Hv as <-.
  apply stats_of_data_reach.
Qed.

(** Whatever the four reads deliver, a cycle run on its own is over
    after at most four body reads, and it touches nothing but the four
    slices and [loading]. *)
Lemma cycle_frame (o : Reads) (m : Machine) :
  exists m',
    cycle operator o m = Some m' /\
    pending m' = pending m /\
    interval m' = interval m /\
    activeTab (ui m') = activeTab (ui m) /\
    showAddEmployee (ui m') = showAddEmployee (ui m) /\
    newEmployeeId (ui m') = newEmployeeId (ui m) /\
    editingEmployee (ui m') = editingEmployee (ui m).
Proof.
  unfold cycle. rewrite cycle_prefix_eq. unfold fetchData_settled.
  destruct (promise_all o) as [[[os js] [oe je] [oc jc] [ol jl]]|].
  - unfold fetchData_apply, when_ok, await_json. cbn -[read_bodies].
    destruct os, js, oe, je, oc, jc, ol, jl;
      cbn [run perform fetchData_catch]; repeat read_body; cycle_done;
      eexists; (split; [reflexivity|]); cbn; done.
  - cbn [run perform fetchData_catch]. cycle_done.
    eexists; (split; [reflexivity|]); cbn; done.
Qed.
End FetchCycle.

(** ** Rows rendered in edit mode *)

Lemma no_edit_row_without_target (st : State) (l : list Employee) :
  Forall (fun e => Some (id e) <> editingEmployee st) l ->
  filter (fun e => row_in_edit_mode st e = true) l = [].
Proof.
  induction 1 as [|e l He _ IH]; [done|].
  rewrite filter_cons_False; [done|].
  unfold row_in_edit_mode. destruct (editingEmployee st) as [target|]; [|done].
  intros Heq%String.eqb_eq. by subst.
Qed.

Lemma no_edit_row_when_not_editing (st : State) :
  editingEmployee st = None -> rows_in_edit_mode st = [].
Proof.
  intros Hnone. apply no_edit_row_without_target.
  rewrite Hnone. by apply Forall_forall.
Qed.

(** ** The mutation handlers *)

Lemma reads_of_app l1 l2 : reads_of (l1 ++ l2) = reads_of l1 ++ reads_of l2.
Proof.
  induction l1 as [|e l1 IH]; [done|].
  destruct e as [[[] ? ? ?]| | | | |]; cbn; by rewrite ?IH.
Qed.

Lemma requests_of_app l1 l2 : requests_of (l1 ++ l2) = requests_of l1 ++ requests_of l2.
Proof. induction l1 as [|[] l1 IH]; cbn; by rewrite ?IH. Qed.

Lemma alerts_of_app l1 l2 : alerts_of (l1 ++ l2) = alerts_of l1 ++ alerts_of l2.
Proof. induction l1 as [|[] l1 IH]; cbn; by rewrite ?IH. Qed.

Ltac log_simpl :=
  cbn [log ui pending interval emit suspend set_ui set_interval perform];
  rewrite ?reads_of_app, ?requests_of_app, ?alerts_of_app;
  cbn [reads_of requests_of alerts_of get method endpoint
       post_employee patch_employee delete_employee put_config post_trigger_update];
  rewrite ?app_nil_r, <- ?app_assoc.

Section Mutations.
Variable operator : string -> bool.

(** What the handler of a write does up to its [await fetch(...)]:
    the request is issued (after the prompt, for a write that has
    one) and the call is parked; no read is issued yet. *)
Lemma write_in_flight (w : Write) (m : Machine) :
  (forall prompt, operator prompt = true) ->
  exists k m0,
    run operator (write_handler w) m = suspend (AwaitFetch k) m0 /\
    ui m0 = ui m /\ pending m0 = pending m /\ interval m0 = interval m /\
    reads_of (log m0) = reads_of (log m) /\
    requests_of (log m0) = requests_of (log m) ++ [write_request w].
Proof.
  intros Hyes.
  destruct w; cbn [write_handler write_request];
    unfold addEmployee, updateEmployee, deleteEmployee, updateConfig, triggerUpdate;
    cbn [run]; rewrite ?Hyes; cbn [negb run];
    do 2 eexists; (split; [reflexivity|]); log_simpl; done.
Qed.

(** C3, as the code has it. Once the operator has accepted the prompt
    (where there is one), a success response to add-employee,
    patch-employee, delete-employee or put-config starts exactly one
    fetch cycle: the four reads are issued once each, after the
    response and not before, and one suspended [fetchData] is left
    pending. A success response to trigger-run starts none: the
    operator is shown an alert and nothing is read. *)
Theorem refresh_after_successful_write
    (w : Write) (response : Response ErrorBody) (m : Machine) :
  (forall prompt, operator prompt = true) ->
  ok response = true ->
  reads_of (log (run operator (write_handler w) m)) = reads_of (log m) /\
  exists m',
    settle operator (length (pending m)) (FetchSettled (Resolved response))
      (run operator (write_handler w) m) = Some m' /\
    match w with
    | TriggerRun =>
        reads_of (log m') = reads_of (log m) /\
        pending m' = pending m /\
        alerts_of (log m') = alerts_of (log m) ++ ["Aktualizacja została uruchomiona!"]
    | _ =>
        reads_of (log m') = reads_of (log m) ++ cycle_reads /\
        pending m' = pending m ++ [fetchData_suspended]
    end.
Proof.
  intros Hyes Hok.
  destruct w; cbn [write_handler];
    unfold addEmployee, updateEmployee, deleteEmployee, updateConfig, triggerUpdate;
    cbn [run]; rewrite ?Hyes; cbn [negb run];
    (split; [by log_simpl|]);
    (erewrite settle_parked; [|reflexivity|reflexivity]);
    cbv beta iota; rewrite Hok;
    eexists; (split; [reflexivity|]);
    cbn [run fetchData]; log_simpl; done.
Qed.
(** What a non-success response to a write does once its handler has
    run to the end (add-employee reads the body first): nothing is
    read, no call is left pending and the hook state is what it was
    before the write. Only add-employee tells the operator. *)
Lemma failed_write_changes_nothing
    (w : Write) (response : Response ErrorBody) (m : Machine) :
  (forall prompt, operator prompt = true) ->
  ok response = false ->
  exists m1 m',
    settle operator (length (pending m)) (FetchSettled (Resolved response))
      (run operator (write_handler w) m) = Some m1 /\
    read_bodies operator 1 (length (pending m)) m1 = m' /\
    ui m' = ui m /\ pending m' = pending m /\ interval m' = interval m /\
    reads_of (log m') = reads_of (log m) /\
    alerts_of (log m') = alerts_of (log m) ++
      match w with
      | AddEmployee _ =>
          match json response with
          | Some error =>
              [("Nie można dodać pracownika: "
                  ++ or_string (detail error) "Sprawdź ID.")%string]
          | None => ["Błąd połączenia z serwerem."]
          end
      | _ => []
      end.
Proof.
  intros Hyes Hok.
  destruct w; cbn [write_handler];
    unfold addEmployee, updateEmployee, deleteEmployee, updateConfig, triggerUpdate;
    cbn [run]; rewrite ?Hyes; cbn [negb run];
    (erewrite settle_parked; [|reflexivity|reflexivity]);
    cbv beta iota; rewrite Hok; do 2 eexists; (split; [reflexivity|]).
  2-5: cbn [run]; rewrite read_bodies_finished by (cbn; lia);
       (split; [reflexivity|]); log_simpl; done.
  unfold await_json. cbn [run].
  rewrite read_bodies_parked by reflexivity.
  rewrite read_bodies_finished by (destruct (json response); cbn; lia).
  split; [reflexivity|].
  destruct (json response); unfold addEmployee_catch; cbn [run]; log_simpl; done.
Qed.

(** C5, as the code has it. [updateEmployee] does not look at which
    row is being edited: while its request is in flight the edit
    target is untouched, a success response clears it to [null]
    (NotEditing) for every [id] and every [updates], an active-toggle
    of another row included, and a non-success response keeps it. *)
Theorem successful_patch_ends_edit_mode
    (id : EmployeeId) (updates : Updates) (response : Response ErrorBody) (m : Machine) :
  editingEmployee (ui (run operator (updateEmployee id updates) m))
    = editingEmployee (ui m) /\
  exists m',
    settle operator (length (pending m)) (FetchSettled (Resolved response))
      (run operator (updateEmployee id updates) m) = Some m' /\
    editingEmployee (ui m') = (if ok response then None else editingEmployee (ui m)) /\
    (ok response = true -> rows_in_edit_mode (ui m') = []).
Proof.
  unfold updateEmployee. cbn [run]. split; [done|].
  erewrite settle_parked; [|reflexivity|reflexivity].
  cbv beta iota. eexists; split; [reflexivity|].
  destruct (ok response); (split; [done|]); [|done].
  intros _. by apply no_edit_row_when_not_editing.
Qed.
End Mutations.

(** ** The row edit state, the prompts and the add form *)

Section EditState.
Variable operator : string -> bool.

(** C6, as the code has it. A fetch cycle never writes the edit
    target: after the cycle [editingEmployee] is what it was before,
    whatever employee list was delivered. When the target is absent
    from the new list, no row is rendered in edit mode, but the state
    itself is not reset. *)
Theorem fetch_cycle_keeps_edit_target (o : Reads) (m : Machine) :
  exists m',
    cycle operator o m = Some m' /\
    editingEmployee (ui m') = editingEmployee (ui m) /\
    (Forall (fun e => Some (id e) <> editingEmployee (ui m)) (employees (ui m')) ->
     rows_in_edit_mode (ui m') = []).
Proof.
  destruct (cycle_frame operator o m) as (m' & Hc & _ & _ & _ & _ & _ & He).
  exists m'. split; [done|]. split; [done|].
  intros Habs. apply no_edit_row_without_target. by rewrite He.
Qed.

(** C7. [deleteEmployee] and [triggerUpdate] start with
    [window.confirm]: the prompt is the first effect of the handler, a
    request is issued only after an accepted prompt, and after a
    declined prompt the handler returns at once, leaving the hook
    state, the pending calls and the timer as they were and issuing no
    request. *)
Theorem destructive_actions_ask_first (id : EmployeeId) (m : Machine) :
  asks_first operator (deleteEmployee id) delete_prompt (delete_employee id) m /\
  asks_first operator triggerUpdate trigger_prompt post_trigger_update m.
Proof.
  unfold asks_first, deleteEmployee, triggerUpdate. cbn [run].
  split; (split; [|split]).
  - destruct (operator delete_prompt); cbn [negb run]; log_simpl; eauto.
  - intros ->. cbn [negb run]. by log_simpl.
  - by intros ->.
  - destruct (operator trigger_prompt); cbn [negb run]; log_simpl; eauto.
  - intros ->. cbn [negb run]. by log_simpl.
  - by intros ->.
Qed.

(** C8, as the code has it. [addEmployee] sends whatever the input
    holds: submitting the add form issues exactly one request, the
    POST to [/api/employees] with [{employee_id: newEmployeeId}], for
    every value of [newEmployeeId], the empty string included; the
    hook state is not touched before the response. *)
Theorem addEmployee_sends_any_identifier (m : Machine) :
  requests_of (log (run operator (on_event (ui m) SubmitAddForm) m))
    = requests_of (log m) ++ [post_employee (newEmployeeId (ui m))] /\
  ui (run operator (on_event (ui m) SubmitAddForm) m) = ui m /\
  length (pending (run operator (on_event (ui m) SubmitAddForm) m))
    = S (length (pending m)).
Proof.
  cbn [on_event]. unfold addEmployee. cbn [run].
  split; [by log_simpl|]. split; [done|].
  cbn. rewrite length_app. cbn. lia.
Qed.
End EditState.

(** ** The poll scheduler *)

Section Scheduler.
Variable operator : string -> bool.

Lemma run_timer_free (p : Prog) : forall m,
  timer_free p ->
  (Forall timer_free (pending m) -> Forall timer_free (pending (run operator p m))) /\
  (interval m = None -> interval (run operator p m) = None).
Proof.
  induction p as [|a k IH|msg k IH|k IH|k IH|k IH|callee IHc k IHk]; intros m Hp.
  - done.
  - destruct a; cbn in Hp; try done; cbn [run];
      match goal with |- context [run operator k ?m1] =>
        destruct (IH m1 Hp) as [H1 H2] end;
      (split; [exact H1 | intros Hi; apply H2; cbn; done]).
  - cbn [run].
    destruct (IH (operator msg) (emit (EConfirm msg (operator msg)) m) (Hp _))
      as [H1 H2].
    split; [exact H1 | exact H2].
  - cbn. split; [|done]. intros Hm. apply Forall_app. split; [done|]. by constructor.
  - cbn. split; [|done]. intros Hm. apply Forall_app. split; [done|]. by constructor.
  - cbn. split; [|done]. intros Hm. apply Forall_app. split; [done|]. by constructor.
  - destruct Hp as [Hc Hk]. cbn [run].
    destruct (IHc m Hc) as [Hc1 Hc2].
    destruct (IHk (run operator callee m) Hk) as [Hk1 Hk2].
    split; auto.
Qed.

Lemma timer_free_fetchData : timer_free fetchData.
Proof.
  cbn. intros settled. unfold fetchData_settled.
  destruct (promise_all settled) as [[[os js] [oe je] [oc jc] [ol jl]]|]; [|done].
  unfold fetchData_apply, when_ok, await_json. cbn.
  destruct os, js, oe, je, oc, jc, ol, jl; cbn; done.
Qed.

Lemma timer_free_on_event (st : State) (ev : UIEvent) : timer_free (on_event st ev).
Proof.
  pose proof timer_free_fetchData as Hfetch.
  destruct ev; cbn [on_event]; try done;
    unfold addEmployee, updateEmployee, deleteEmployee, updateConfig;
    cbn -[fetchData].
  4: intros [|]; cbn -[fetchData]; [|done].
  all: intros [|[[|] [error|]]]; cbn -[fetchData]; done.
Qed.

Lemma timer_free_resume (p k : Prog) (a : Answer) :
  timer_free p -> resume p a = Some k -> timer_free k.
Proof.
  destruct p, a; cbn; intros Hp Hk; try discriminate Hk;
    injection Hk as <-; auto.
Qed.

(** Every step keeps the pending calls free of [setInterval], and
    from a disarmed timer only [Mount] arms it again. *)
Lemma step_timer_free (l : Label) (m m' : Machine) :
  Forall timer_free (pending m) ->
  step operator l m = Some m' ->
  Forall timer_free (pending m') /\
  (l <> Mount -> interval m = None -> interval m' = None /\ l <> Tick).
Proof.
  intros Hm Hstep. destruct l as [| | |ev|i a]; cbn [step] in Hstep.
  - injection Hstep as <-. split; [|done].
    cbn. apply Forall_app. split; [done|].
    constructor; [|done]. apply timer_free_fetchData.
  - injection Hstep as <-. by split.
  - destruct (interval m) eqn:Hi; [|done]. injection Hstep as <-.
    split; [|by intros _ ?].
    by apply (run_timer_free fetchData m timer_free_fetchData).
  - injection Hstep as <-.
    destruct (run_timer_free (on_event (ui m) ev) m (timer_free_on_event _ _)) as [H1 H2].
    split; [auto|]. intros _ Hi. by split; [apply H2|].
  - unfold settle in Hstep.
    destruct (pending m !! i) as [p|] eqn:Hp; [|done].
    destruct (resume p a) as [k|] eqn:Hk; [|done]. injection Hstep as <-.
    assert (timer_free k) as Hfree.
    { eapply timer_free_resume; [|done]. by eapply Forall_lookup_1. }
    destruct (run_timer_free k (set_pending (delete i (pending m)) m) Hfree) as [H1 H2].
    split; [apply H1; by apply Forall_delete|].
    intros _ Hi. by split; [apply H2|].
Qed.

Lemma exec_timer_free (ls : list Label) : forall m m',
  Forall timer_free (pending m) ->
  exec operator ls m = Some m' ->
  Forall timer_free (pending m').
Proof.
  induction ls as [|l ls IH]; intros m m' Hm Hex; cbn in Hex.
  - by injection Hex as <-.
  - destruct (step operator l m) as [m1|] eqn:Hstep; [|done].
    eapply IH; [|done]. by eapply step_timer_free.
Qed.

Lemma exec_stays_stopped (ls : list Label) : forall m m',
  Forall timer_free (pending m) ->
  interval m = None ->
  (Mount ∉ ls) ->
  exec operator ls m = Some m' ->
  (Tick ∉ ls) /\ interval m' = None.
Proof.
  induction ls as [|l ls IH]; intros m m' Hm Hi Hmount Hex; cbn in Hex.
  - injection Hex as <-. split; [|done]. apply not_elem_of_nil.
  - destruct (step operator l m) as [m1|] eqn:Hstep; [|done].
    apply not_elem_of_cons in Hmount as [Hl Hls].
    destruct (step_timer_free l m m1 Hm Hstep) as [Hm1 Hstop].
    destruct (Hstop ltac:(done) Hi) as [Hi1 Htick].
    destruct (IH m1 m' Hm1 Hi1 Hls Hex) as [Hticks Hi'].
    split; [|done]. apply not_elem_of_cons. by split.
Qed.

(** The hook state after running [p] depends on the hook state before
    only: the log and the timer are never read. *)
Lemma run_ui (p : Prog) : forall m1 m2,
  ui m1 = ui m2 -> ui (run operator p m1) = ui (run operator p m2).
Proof.
  induction p as [|a k IH|msg k IH|k IH|k IH|k IH|callee IHc k IHk];
    intros m1 m2 Hui; cbn [run]; try done.
  - apply IH. destruct a; cbn; by rewrite ?Hui.
  - by apply IH.
  - by apply IHk, IHc.
Qed.

Lemma fold_perform_ui (cs : list Action) : forall m1 m2,
  ui m1 = ui m2 ->
  ui (fold_left (fun m a => perform a m) cs m1)
  = ui (fold_left (fun m a => perform a m) cs m2).
Proof.
  induction cs as [|a cs IH]; intros m1 m2 Hui; [done|].
  cbn. apply IH. destruct a; cbn; by rewrite ?Hui.
Qed.

(** [calls] lists what [run] performs: the hook state after running
    [p] is the one its calls produce, one after the other. *)
Lemma run_performs_calls (p : Prog) : forall m,
  ui (run operator p m) = ui (fold_left (fun m a => perform a m) (calls operator p) m).
Proof.
  induction p as [|a k IH|msg k IH|k IH|k IH|k IH|callee IHc k IHk];
    intros m; cbn [run calls]; try done.
  - rewrite IH. by apply fold_perform_ui.
  - rewrite fold_left_app, IHk. apply fold_perform_ui, IHc.
Qed.

Lemma run_pending (p : Prog) : forall m1 m2,
  pending m1 = pending m2 ->
  pending (run operator p m1) = pending (run operator p m2).
Proof.
  induction p as [|a k IH|msg k IH|k IH|k IH|k IH|callee IHc k IHk];
    intros m1 m2 Hp; cbn [run]; try done.
  - apply IH. by destruct a.
  - by apply IH.
  - cbn. by rewrite Hp.
  - cbn. by rewrite Hp.
  - cbn. by rewrite Hp.
  - by apply IHk, IHc.
Qed.

(** Resuming calls in flight goes the same way on two machines that
    agree on the hook state and on the calls in flight, whatever their
    timers: the same calls are made and the same calls stay in flight. *)
Lemma settles_ignore_the_timer (ls : list Label) : forall s m,
  Forall (fun l => is_settle l = true) ls ->
  ui s = ui m -> pending s = pending m ->
  exec_calls operator ls s = exec_calls operator ls m /\
  pending <$> exec operator ls s = pending <$> exec operator ls m /\
  ui <$> exec operator ls s = ui <$> exec operator ls m.
Proof.
  induction ls as [|l ls IH]; intros s m Hls Hui Hp.
  - cbn. by rewrite Hui, Hp.
  - apply Forall_cons in Hls as [Hl Hls].
    destruct l as [| | | |i a]; try discriminate Hl.
    cbn [exec_calls exec step step_calls]. unfold settle. rewrite Hp.
    destruct (pending m !! i) as [p|]; [|done].
    destruct (resume p a) as [k|]; [|done].
    destruct (IH (run operator k (set_pending (delete i (pending m)) s))
                 (run operator k (set_pending (delete i (pending m)) m)) Hls)
      as (Hcalls & Hpending & Hstate).
    + by apply run_ui.
    + by apply run_pending.
    + by rewrite Hcalls, Hpending, Hstate.
Qed.

Lemma body_read_step (n : nat) (k : Prog) (m : Machine) :
  n = length (pending m) ->
  step operator (Settle n BodyRead) (suspend (AwaitJson k) m) = Some (run operator k m) /\
  step_calls operator (Settle n BodyRead) (suspend (AwaitJson k) m) = calls operator k.
Proof.
  intros ->. split.
  - cbn [step]. by apply settle_parked.
  - cbn. by rewrite list_lookup_middle.
Qed.

Lemma exec_calls_step (l : Label) (ls : list Label) (m m' : Machine) :
  step operator l m = Some m' ->
  exec_calls operator (l :: ls) m
  = app (step_calls operator l m) <$> exec_calls operator ls m'.
Proof. intros Hstep. cbn [exec_calls]. rewrite Hstep. by destruct (exec_calls _ _ _). Qed.

Lemma exec_step (l : Label) (ls : list Label) (m m' : Machine) :
  step operator l m = Some m' ->
  exec operator (l :: ls) m = exec operator ls m'.
Proof. intros Hstep. cbn [exec]. by rewrite Hstep. Qed.

(** A cycle in flight at [Promise.all], on any machine and whatever
    its timer: when its four reads succeed and its bodies are read,
    the calls made are the five setter calls of lines 42-64 with the
    fetched values, in this order, and the call is over. *)
Lemma in_flight_cycle_calls_setters
    (s : Machine) (i : nat)
    (sd : StatsData) (es : list Employee) (c : Config) (ls : list LogEntry) :
  pending s !! i = Some fetchData_suspended ->
  exec_calls operator
    (Settle i (AllSettled (all_succeed sd es c ls))
       :: replicate 4 (Settle (length (pending s) - 1) BodyRead)) s
  = Some [SetStats (stats_of_data sd); SetEmployees es; SetConfig (Some c);
          SetLogs ls; SetLoading false] /\
  pending <$> exec operator
    (Settle i (AllSettled (all_succeed sd es c ls))
       :: replicate 4 (Settle (length (pending s) - 1) BodyRead)) s
  = Some (delete i (pending s)).
Proof.
  intros Hi.
  set (n := length (pending s) - 1).
  set (m0 := set_pending (delete i (pending s)) s).
  assert (n = length (pending m0)) as Hn.
  { unfold n, m0. cbn. symmetry. apply length_delete. by rewrite Hi. }
  eassert (step operator (Settle i (AllSettled (all_succeed sd es c ls))) s
           = Some (suspend (AwaitJson _) m0)) as Hfirst.
  { cbn [step]. unfold settle. rewrite Hi.
    cbn [resume fetchData_suspended fetchData_settled fetchData_apply when_ok
         await_json all_succeed success promise_all
         statsOut employeesOut configOut logsOut
         statsRes employeesRes configRes logsRes ok json run].
    reflexivity. }
  assert (step_calls operator (Settle i (AllSettled (all_succeed sd es c ls))) s = [])
    as Hnone.
  { cbn [step_calls]. rewrite Hi. reflexivity. }
  cbn [replicate]. split.
  - rewrite (exec_calls_step _ _ _ _ Hfirst), Hnone.
    repeat match goal with
    | |- context [exec_calls operator (Settle n BodyRead :: ?t)
                    (suspend (AwaitJson ?k) ?m)] =>
        let Hs := fresh in let Hc := fresh in
        destruct (body_read_step n k m Hn) as [Hs Hc];
        rewrite (exec_calls_step _ t _ _ Hs), Hc; clear Hs Hc;
        cbn [run perform calls await_json json success]
    end.
    reflexivity.
  - rewrite (exec_step _ _ _ _ Hfirst).
    repeat match goal with
    | |- context [exec operator (Settle n BodyRead :: ?t)
                    (suspend (AwaitJson ?k) ?m)] =>
        let Hs := fresh in
        destruct (body_read_step n k m Hn) as [Hs _];
        rewrite (exec_step _ t _ _ Hs); clear Hs;
        cbn [run perform await_json json success]
    end.
    reflexivity.
Qed.

(** C9, as the code has it. The cleanup of the effect calls
    [clearInterval] and nothing else.  From then on the timer never
    fires again (until the effect is mounted again), so the timer
    starts no further fetch.  The calls that were in flight are
    neither aborted nor checked: resumed after the stop they make the
    same calls, setter calls included, and leave the same calls in
    flight as they would have without the stop.  In particular a fetch
    cycle that was in flight at the stop, once its four reads have
    succeeded and its bodies are read, has called [setStats],
    [setEmployees], [setConfig], [setLogs] and [setLoading(false)]
    with what it fetched, and is over. *)
Theorem stop_only_clears_the_timer (before : list Label) (m : Machine) :
  exec operator before boot = Some m ->
  exists stopped,
    step operator Cleanup m = Some stopped /\
    step_calls operator Cleanup m = [ClearInterval] /\
    ui stopped = ui m /\ pending stopped = pending m /\ interval stopped = None /\
    (forall later m',
       (Mount ∉ later) -> exec operator later stopped = Some m' ->
       (Tick ∉ later) /\ interval m' = None) /\
    (forall i a,
       observe (fun st => st) (settle operator i a stopped)
       = observe (fun st => st) (settle operator i a m)) /\
    (forall later,
       Forall (fun l => is_settle l = true) later ->
       exec_calls operator later stopped = exec_calls operator later m /\
       pending <$> exec operator later stopped = pending <$> exec operator later m) /\
    (forall i sd es c ls,
       pending m !! i = Some fetchData_suspended ->
       exec_calls operator
         (Settle i (AllSettled (all_succeed sd es c ls))
            :: replicate 4 (Settle (length (pending m) - 1) BodyRead)) stopped
       = Some [SetStats (stats_of_data sd); SetEmployees es; SetConfig (Some c);
               SetLogs ls; SetLoading false] /\
       pending <$> exec operator
         (Settle i (AllSettled (all_succeed sd es c ls))
            :: replicate 4 (Settle (length (pending m) - 1) BodyRead)) stopped
       = Some (delete i (pending m))).
Proof.
  intros Hreach. eexists. split; [reflexivity|]. cbn [run useEffect_cleanup perform].
  split; [reflexivity|]. do 3 (split; [done|]). split; [|split; [|split]].
  - intros later m' Hmount Hex.
    eapply exec_stays_stopped; [| |done|done]; [|done].
    cbn. by eapply (exec_timer_free before boot m).
  - intros i a. unfold settle. cbn.
    destruct (pending m !! i) as [p|]; [|done].
    destruct (resume p a) as [k|]; [|done]. cbn.
    f_equal. by apply run_ui.
  - intros later Hlater.
    destruct (settles_ignore_the_timer later
                (set_interval None (emit EClearInterval m)) m Hlater)
      as (Hcalls & Hpending & _); done.
  - intros i sd es c ls Hi.
    apply (in_flight_cycle_calls_setters
             (set_interval None (emit EClearInterval m)) i sd es c ls Hi).
Qed.

(** C10, as the code has it. A cycle whose four reads succeed applies
    its slices one at a time, in the order stats, employees, config,
    logs, each behind a suspension point of its own. Run on its own
    and observed after [k] body reads, the Snapshot holds the cycle's
    values in the first [k] slices and the values from before the
    cycle in the others; from the fourth read on it is the cycle's
    complete result and the call is over, before that the call is
    still pending. *)
Theorem slices_applied_one_by_one
    (sd : StatsData) (es : list Employee) (c : Config) (ls : list LogEntry)
    (k : nat) (m : Machine) :
  exists m',
    cycle_prefix operator k (all_succeed sd es c ls) m = Some m' /\
    snapshot (ui m') = snapshot_after k (delivered sd es c ls) (snapshot (ui m)) /\
    length (pending m') = length (pending m) + (if Nat.leb 4 k then 0 else 1).
Proof.
  rewrite cycle_prefix_eq. unfold fetchData_settled.
  cbn [promise_all all_succeed statsOut employeesOut configOut logsOut].
  unfold fetchData_apply, when_ok, await_json, success.
  cbn -[read_bodies].
  destruct k as [|[|[|[|k]]]].
  - eexists. split; [reflexivity|]. cbn. rewrite length_app. by cbn.
  - rewrite read_bodies_parked by reflexivity. cbn [run perform].
    eexists. split; [reflexivity|]. cbn. rewrite length_app. by cbn.
  - do 2 (rewrite read_bodies_parked by reflexivity; cbn [run perform]).
    eexists. split; [reflexivity|]. cbn. rewrite length_app. by cbn.
  - do 3 (rewrite read_bodies_parked by reflexivity; cbn [run perform]).
    eexists. split; [reflexivity|]. cbn. rewrite length_app. by cbn.
  - do 4 (rewrite read_bodies_parked by reflexivity; cbn [run perform]).
    rewrite read_bodies_finished by (cbn; lia).
    eexists. split; [reflexivity|]. cbn. split; [done|lia].
Qed.
End Scheduler.

(** ** The base URL *)

Lemma strip_trailing_slash_app (s : string) :
  strip_trailing_slash (s ++ "/") = s.
Proof.
  induction s as [|c s IH]; [reflexivity|].
  destruct s as [|c' s']; [reflexivity|].
  change (String c (strip_trailing_slash (String c' s' ++ "/")) = String c (String c' s')).
  by rewrite IH.
Qed.

Lemma strip_trailing_slash_id (s : string) :
  ends_with_slash s = false -> strip_trailing_slash s = s.
Proof.
  induction s as [|c s IH]; [reflexivity|].
  cbn [strip_trailing_slash ends_with_slash].
  destruct s as [|c' s']; [by intros ->|].
  intros Hs. by rewrite IH.
Qed.

Lemma or_string_nonempty (s d : string) :
  s <> "" -> or_string (Some s) d = s.
Proof. by destruct s. Qed.

Lemma append_slash_nonempty (s : string) : (s ++ "/")%string <> "".
Proof. by destruct s. Qed.

(** A base URL is taken as it is when it is not empty and has no
    slash at its end, and one slash at its end is dropped, so both
    spellings give the same request URLs.  Exactly one slash is
    dropped: a base URL written with two keeps one. *)
Theorem trailing_slash_is_insignificant (base : string) :
  base <> "" ->
  ends_with_slash base = false ->
  API_URL (Some base) = base /\
  API_URL (Some (base ++ "/")%string) = base /\
  API_URL (Some (base ++ "//")%string) = (base ++ "/")%string /\
  forall e, url (API_URL (Some (base ++ "/")%string)) e = url (API_URL (Some base)) e.
Proof.
  intros Hne Hslash. unfold API_URL.
  assert (or_string (Some base) "http://localhost:8000" = base) as ->
    by by apply or_string_nonempty.
  rewrite (or_string_nonempty (base ++ "/")%string) by apply append_slash_nonempty.
  assert ((base ++ "//")%string = ((base ++ "/") ++ "/")%string) as ->.
  { clear. induction base as [|c b IH]; [done|].
    change (String c (b ++ "//") = String c ((b ++ "/") ++ "/"))%string.
    by rewrite IH. }
  rewrite (or_string_nonempty ((base ++ "/") ++ "/")%string) by apply append_slash_nonempty.
  rewrite !strip_trailing_slash_app.
  rewrite strip_trailing_slash_id by done. done.
Qed.

(** ** What the component keeps to in every run *)

Lemma or_null_not_empty (x : option string) : or_null x <> Some "".
Proof. by destruct x as [[|c s]|]. Qed.

Lemma every_action_when_ok {A} (P : Action -> Prop)
    (res : Response A) (set : A -> Action) (next : Prog) :
  (forall v, P (set v)) ->
  every_action P fetchData_catch ->
  every_action P next ->
  every_action P (when_ok res set next).
Proof.
  intros Hset Hcatch Hnext. unfold when_ok, await_json.
  destruct (ok res), (json res); cbn; auto.
Qed.

Lemma disciplined_fetchData : every_action disciplined fetchData.
Proof.
  cbn. do 4 (split; [reflexivity|]). intros settled. unfold fetchData_settled.
  destruct (promise_all settled) as [r|]; [|by cbn].
  unfold fetchData_apply.
  repeat (apply every_action_when_ok; [| by cbn |]); try by cbn.
  intros v. cbn. split; apply or_null_not_empty.
Qed.

Lemma disciplined_on_event (st : State) (ev : UIEvent) :
  every_action disciplined (on_event st ev).
Proof.
  pose proof disciplined_fetchData as Hfetch.
  destruct ev; cbn [on_event]; try by cbn;
    unfold addEmployee, updateEmployee, deleteEmployee, updateConfig;
    cbn -[fetchData].
  4: intros [|]; cbn -[fetchData]; [|done]; (split; [reflexivity|]).
  1-3, 5: split; [reflexivity|].
  all: intros [|[[|] [error|]]]; cbn -[fetchData]; done.
Qed.

Lemma every_action_resume (P : Action -> Prop) (p k : Prog) (a : Answer) :
  every_action P p -> resume p a = Some k -> every_action P k.
Proof.
  destruct p, a; cbn; intros Hp Hk; try discriminate Hk;
    injection Hk as <-; auto.
Qed.

Section Invariant.
Variable operator : string -> bool.

(** A property of the page and of the effect log that no disciplined
    action and no prompt breaks. *)
Variable Inv : State -> list Effect -> Prop.
Hypothesis Inv_perform : forall a m,
  disciplined a -> Inv (ui m) (log m) -> Inv (ui (perform a m)) (log (perform a m)).
Hypothesis Inv_confirm : forall msg answer st l,
  Inv st l -> Inv st (l ++ [EConfirm msg answer]).

Lemma run_invariant (p : Prog) : forall m,
  every_action disciplined p ->
  Forall (every_action disciplined) (pending m) ->
  Inv (ui m) (log m) ->
  Forall (every_action disciplined) (pending (run operator p m)) /\
  Inv (ui (run operator p m)) (log (run operator p m)).
Proof.
  induction p as [|a k IH|msg k IH|k IH|k IH|k IH|callee IHc k IHk];
    intros m Hp Hm Hi; cbn [run].
  - done.
  - destruct Hp as [Ha Hk]. apply IH; [done| |by apply Inv_perform].
    by destruct a.
  - apply IH; [apply Hp|done|]. by apply Inv_confirm.
  - split; [|done]. cbn. apply Forall_app. split; [done|]. by constructor.
  - split; [|done]. cbn. apply Forall_app. split; [done|]. by constructor.
  - split; [|done]. cbn. apply Forall_app. split; [done|]. by constructor.
  - destruct Hp as [Hc Hk]. destruct (IHc m Hc Hm Hi) as [Hm1 Hi1]. by apply IHk.
Qed.

Lemma step_invariant (l : Label) (m m' : Machine) :
  Forall (every_action disciplined) (pending m) ->
  Inv (ui m) (log m) ->
  step operator l m = Some m' ->
  Forall (every_action disciplined) (pending m') /\ Inv (ui m') (log m').
Proof.
  intros Hm Hi Hstep. destruct l as [| | |ev|i a]; cbn [step] in Hstep.
  - injection Hstep as <-. apply (run_invariant useEffect_body m); [|done|done].
    split; [apply disciplined_fetchData|]. by cbn.
  - injection Hstep as <-. apply (run_invariant useEffect_cleanup m); [|done|done].
    by cbn.
  - destruct (interval m); [|done]. injection Hstep as <-.
    apply (run_invariant fetchData m); [|done|done]. apply disciplined_fetchData.
  - injection Hstep as <-. apply (run_invariant (on_event (ui m) ev) m); [|done|done].
    apply disciplined_on_event.
  - unfold settle in Hstep.
    destruct (pending m !! i) as [p|] eqn:Hp; [|done].
    destruct (resume p a) as [k|] eqn:Hk; [|done]. injection Hstep as <-.
    apply run_invariant; [| by apply Forall_delete | done].
    eapply every_action_resume; [|done]. by eapply Forall_lookup_1.
Qed.

Lemma exec_invariant (ls : list Label) : forall m m',
  Forall (every_action disciplined) (pending m) ->
  Inv (ui m) (log m) ->
  exec operator ls m = Some m' ->
  Forall (every_action disciplined) (pending m') /\ Inv (ui m') (log m').
Proof.
  induction ls as [|l ls IH]; intros m m' Hm Hi Hex; cbn in Hex.
  - by injection Hex as <-.
  - destruct (step operator l m) as [m1|] eqn:Hstep; [|done].
    destruct (step_invariant l m m1 Hm Hi Hstep) as [Hm1 Hi1]. by eapply IH.
Qed.
End Invariant.

Lemma same_headers_eq (l hs : list Header) : same_headers l hs = true -> l = hs.
Proof.
  revert hs. induction l as [|h l IH]; intros [|h' hs]; cbn; try done.
  intros [Hh Hl]%andb_prop. f_equal; [by destruct h, h'|by apply IH].
Qed.

Lemma ui_request_authorized (req : Request) :
  ui_request req = true ->
  authorized req = true /\ endpoint req <> ApiTriggerUpdate.
Proof.
  destruct req as [mth e hs b]. unfold ui_request, authorized, has_headers. cbn.
  destruct mth, e, b; try done;
    repeat match goal with
    | |- context [Nat.eqb ?n 50] => destruct (Nat.eqb n 50)
    | |- context [same_headers hs ?l] =>
        destruct (same_headers hs l) eqn:Hhs;
          [apply same_headers_eq in Hhs; subst hs|]
    end; cbn; done.
Qed.

Lemma requests_of_perform (a : Action) (m : Machine) :
  requests_of (log (perform a m)) =
  requests_of (log m) ++ match a with Fetch req => [req] | _ => [] end.
Proof. destruct a; cbn; rewrite ?requests_of_app; cbn; by rewrite ?app_nil_r. Qed.

Section Discipline.
Variable operator : string -> bool.

Lemma pending_disciplined (ls : list Label) (m : Machine) :
  exec operator ls boot = Some m ->
  Forall (every_action disciplined) (pending m).
Proof.
  intros Hex.
  apply (exec_invariant operator (fun _ _ => True)) with (ls := ls) (m := boot);
    done.
Qed.

(** Whatever the operator does and the network answers, every
    request the component has issued is one of those of the page:
    a read of a cycle, or a write bound to an element of the JSX, with
    the headers and body of its handler.  In particular every request
    carries the bearer credential, and [/api/trigger-update] is never
    requested, since nothing calls [triggerUpdate]. *)
Theorem only_page_requests_are_issued (ls : list Label) (m : Machine) :
  exec operator ls boot = Some m ->
  Forall (fun req => ui_request req = true) (requests_of (log m)) /\
  Forall (fun req => authorized req = true) (requests_of (log m)) /\
  Forall (fun req => endpoint req <> ApiTriggerUpdate) (requests_of (log m)).
Proof.
  intros Hex.
  assert (Forall (fun req => ui_request req = true) (requests_of (log m))) as Hall.
  { apply (exec_invariant operator
             (fun _ l => Forall (fun req => ui_request req = true) (requests_of l)))
      with (ls := ls) (m := boot); try done; try by constructor.
    - intros a m0 Ha Hl. rewrite requests_of_perform. apply Forall_app.
      split; [done|]. destruct a; by constructor.
    - intros msg answer st l Hl. rewrite requests_of_app. cbn.
      by rewrite app_nil_r. }
  split; [done|].
  split; eapply Forall_impl; try exact Hall; intros req Hreq;
    by destruct (ui_request_authorized req Hreq).
Qed.

(** Once the page has replaced the spinner it never goes back to it:
    [loading] is only ever set to [false]. *)
Theorem spinner_never_returns (ls ls' : list Label) (m m' : Machine) :
  exec operator ls boot = Some m ->
  exec operator ls' m = Some m' ->
  loading (ui m) = false ->
  loading (ui m') = false.
Proof.
  intros Hex Hex' Hloading.
  apply (exec_invariant operator (fun st _ => loading st = false))
    with (ls := ls') (m := m); try done.
  - intros a m0 Ha Hl. by destruct a.
  - by eapply pending_disciplined.
Qed.

(** The stats on the page never hold an empty timestamp: [last_run]
    and [next_run] are [null] or a non-empty string in every state
    the component reaches, so the truthiness tests of the view on
    them tell exactly whether a timestamp is there. *)
Theorem timestamps_are_never_empty (ls : list Label) (m : Machine) :
  exec operator ls boot = Some m ->
  last_run (stats (ui m)) <> Some "" /\ next_run (stats (ui m)) <> Some "".
Proof.
  intros Hex.
  apply (exec_invariant operator
           (fun st _ => last_run (stats st) <> Some "" /\ next_run (stats st) <> Some ""))
    with (ls := ls) (m := boot); try done; try by constructor.
  intros a m0 Ha Hl. by destruct a.
Qed.
End Discipline.

(** ** More on fetch cycles *)

Lemma errors_of_app l1 l2 : errors_of (l1 ++ l2) = errors_of l1 ++ errors_of l2.
Proof. induction l1 as [|[] l1 IH]; cbn; by rewrite ?IH. Qed.

Section MoreCycles.
Variable operator : string -> bool.

Ltac read_body :=
  rewrite read_bodies_parked by reflexivity; cbn [run perform].

Ltac cycle_done :=
  rewrite read_bodies_finished by (cbn; lia).

(** Whatever the four reads deliver, rejections and unreadable bodies
    included, a cycle run on its own comes to an end and leaves
    [loading] cleared: the spinner does not outlive the first cycle.
    The cycle writes to the console exactly when something was
    thrown, once. *)
Theorem cycle_always_clears_loading (o : Reads) (m : Machine) :
  exists m',
    cycle operator o m = Some m' /\
    pending m' = pending m /\
    loading (ui m') = false /\
    errors_of (log m') = errors_of (log m) ++
      match promise_all o with
      | None => ["Error fetching data:"]
      | Some r =>
          if unreadable (statsRes r)
             || unreadable (employeesRes r)
             || unreadable (configRes r)
             || unreadable (logsRes r)
          then ["Error fetching data:"] else []
      end.
Proof.
  unfold cycle. rewrite cycle_prefix_eq. unfold fetchData_settled.
  destruct (promise_all o) as [[[os js] [oe je] [oc jc] [ol jl]]|].
  - unfold fetchData_apply, when_ok, await_json, unreadable. cbn -[read_bodies].
    destruct os, js, oe, je, oc, jc, ol, jl;
      cbn [run perform fetchData_catch]; repeat read_body; cycle_done;
      eexists; (split; [reflexivity|]); cbn;
      rewrite ?errors_of_app; cbn; rewrite ?app_nil_r; done.
  - cbn [run perform fetchData_catch]. cycle_done.
    eexists; (split; [reflexivity|]); cbn;
      rewrite ?errors_of_app; cbn; rewrite ?app_nil_r; done.
Qed.

(** A body that cannot be read ends the cycle where it stands: the
    slice of that read and the slices after it, in the order stats,
    employees, config, logs, keep the values from before the cycle,
    also when their own reads succeeded. *)
Theorem unreadable_body_aborts_the_cycle (r : Responses) (m : Machine) :
  exists m',
    cycle operator (settled_as r) m = Some m' /\
    (unreadable (statsRes r) = true -> snapshot (ui m') = snapshot (ui m)) /\
    (unreadable (employeesRes r) = true ->
     employees (ui m') = employees (ui m) /\
     config (ui m') = config (ui m) /\ logs (ui m') = logs (ui m)) /\
    (unreadable (configRes r) = true ->
     config (ui m') = config (ui m) /\ logs (ui m') = logs (ui m)) /\
    (unreadable (logsRes r) = true -> logs (ui m') = logs (ui m)).
Proof.
  destruct r as [[os js] [oe je] [oc jc] [ol jl]].
  unfold cycle. rewrite cycle_prefix_eq.
  unfold fetchData_settled, fetchData_apply, when_ok, await_json, unreadable.
  cbn -[read_bodies].
  destruct os, js, oe, je, oc, jc, ol, jl;
    cbn [run perform fetchData_catch]; repeat read_body; cycle_done;
    eexists; (split; [reflexivity|]); cbn; repeat split; done.
Qed.

(** The timer does not wait for a cycle to finish: while it is armed,
    [n] ticks that go unanswered start [n] cycles, [4 n] reads are
    issued and [n] calls of [fetchData] are pending side by side; the
    page itself is not touched. *)
Theorem unanswered_ticks_pile_up (n : nat) : forall (m : Machine) (ms : Z),
  interval m = Some ms ->
  exists m',
    exec operator (replicate n Tick) m = Some m' /\
    pending m' = pending m ++ replicate n fetchData_suspended /\
    reads_of (log m') = reads_of (log m) ++ concat (replicate n cycle_reads) /\
    ui m' = ui m /\
    interval m' = Some ms.
Proof.
  induction n as [|n IH]; intros m ms Hms.
  - exists m. cbn. by rewrite !app_nil_r.
  - cbn [replicate exec step]. rewrite Hms.
    destruct (IH (run operator fetchData m) ms Hms) as (m' & Hex & Hp & Hr & Hu & Hi).
    exists m'. split; [done|]. rewrite Hp, Hr, Hu.
    repeat split; [| |done].
    + cbn. by rewrite <- app_assoc.
    + cbn [run fetchData]. log_simpl. by cbn.
Qed.
End MoreCycles.

(** Two cycles in flight at once: the reads of the first are answered
    after those of the second.  The page ends up with what the first,
    older, cycle fetched: the cycle that settles last wins, whichever
    was started last. *)
Theorem cycle_settling_last_wins
    (operator : string -> bool) (st : State) (l : list Effect) (ms : Z)
    (sd1 sd2 : StatsData) (es1 es2 : list Employee) (c1 c2 : Config)
    (ls1 ls2 : list LogEntry) :
  let quiet := {| ui := st; pending := []; log := l; interval := Some ms |} in
  let both_started := [Tick; Tick] in
  let second_settles :=
    [Settle 1 (AllSettled (all_succeed sd2 es2 c2 ls2));
     Settle 1 BodyRead; Settle 1 BodyRead; Settle 1 BodyRead; Settle 1 BodyRead] in
  let first_settles :=
    [Settle 0 (AllSettled (all_succeed sd1 es1 c1 ls1));
     Settle 0 BodyRead; Settle 0 BodyRead; Settle 0 BodyRead; Settle 0 BodyRead] in
  observe snapshot (exec operator (both_started ++ second_settles) quiet)
    = Some (delivered sd2 es2 c2 ls2) /\
  observe snapshot (exec operator (both_started ++ second_settles ++ first_settles) quiet)
    = Some (delivered sd1 es1 c1 ls1) /\
  parked (exec operator (both_started ++ second_settles ++ first_settles) quiet) = Some 0.
Proof. repeat split. Qed.

(** ** More on the writes and on the local events *)

Lemma settle_last (operator : string -> bool) p a k ps m :
  pending m = ps ++ [p] ->
  resume p a = Some k ->
  settle operator (length ps) a m = Some (run operator k (set_pending ps m)).
Proof.
  intros Hp Hk. unfold settle. rewrite Hp.
  rewrite list_lookup_middle by done. rewrite Hk.
  by rewrite delete_middle, app_nil_r.
Qed.

Section MoreWrites.
Variable operator : string -> bool.

Ltac effects_simpl :=
  cbn [log ui pending interval emit suspend set_ui set_interval perform];
  rewrite ?reads_of_app, ?errors_of_app, ?alerts_of_app;
  cbn [reads_of errors_of alerts_of get method endpoint
       post_employee patch_employee delete_employee put_config post_trigger_update];
  rewrite ?app_nil_r, <- ?app_assoc.

(** A write whose request gets no response at all (the promise of
    [fetch] rejects) ends in the [catch] block of its handler: the
    page, the pending calls and the timer are what they were, nothing
    is read, the handler's message goes to the console, and only
    add-employee tells the operator, with a fixed text. *)
Theorem rejected_write_changes_nothing (w : Write) (m : Machine) :
  (forall prompt, operator prompt = true) ->
  exists m',
    settle operator (length (pending m)) (FetchSettled Rejected)
      (run operator (write_handler w) m) = Some m' /\
    ui m' = ui m /\ pending m' = pending m /\ interval m' = interval m /\
    reads_of (log m') = reads_of (log m) /\
    errors_of (log m') = errors_of (log m) ++ [catch_message w] /\
    alerts_of (log m') = alerts_of (log m) ++
      match w with
      | AddEmployee _ => ["Błąd połączenia z serwerem."]
      | _ => []
      end.
Proof.
  intros Hyes.
  destruct w; cbn [write_handler catch_message];
    unfold addEmployee, updateEmployee, deleteEmployee, updateConfig, triggerUpdate;
    cbn [run]; rewrite ?Hyes; cbn [negb run];
    (erewrite settle_parked; [|reflexivity|reflexivity]);
    cbv beta iota; unfold addEmployee_catch; cbn [run];
    eexists; (split; [reflexivity|]); effects_simpl; done.
Qed.

(** No write is applied to the page optimistically.  When its success
    response arrives, the four slices of the Snapshot, [loading] and
    the tab are what they were before the write; the handler clears
    only the transient state of its own control: add-employee closes
    the add form and empties its input, patch-employee leaves edit
    mode, the other three touch nothing. *)
Theorem successful_write_is_not_optimistic
    (w : Write) (response : Response ErrorBody) (m : Machine) :
  (forall prompt, operator prompt = true) ->
  ok response = true ->
  exists m',
    settle operator (length (pending m)) (FetchSettled (Resolved response))
      (run operator (write_handler w) m) = Some m' /\
    snapshot (ui m') = snapshot (ui m) /\
    loading (ui m') = loading (ui m) /\
    activeTab (ui m') = activeTab (ui m) /\
    showAddEmployee (ui m') =
      match w with AddEmployee _ => false | _ => showAddEmployee (ui m) end /\
    newEmployeeId (ui m') =
      match w with AddEmployee _ => "" | _ => newEmployeeId (ui m) end /\
    editingEmployee (ui m') =
      match w with PatchEmployee _ _ => None | _ => editingEmployee (ui m) end.
Proof.
  intros Hyes Hok.
  destruct w; cbn [write_handler];
    unfold addEmployee, updateEmployee, deleteEmployee, updateConfig, triggerUpdate;
    cbn [run]; rewrite ?Hyes; cbn [negb run];
    (erewrite settle_parked; [|reflexivity|reflexivity]);
    cbv beta iota; rewrite Hok;
    eexists; (split; [reflexivity|]); cbn; done.
Qed.

(** What is typed into the add form is sent as it stands, and what is
    typed while the request is in flight is lost: after the keystrokes
    [value], the submit, further keystrokes [later] and a success
    response, the only write issued is the POST carrying [value], one
    cycle has been started, the form is closed and its input is
    empty. *)
Theorem input_typed_in_flight_is_discarded
    (value later : string) (response : Response ErrorBody) (m : Machine) :
  ok response = true ->
  exists m',
    exec operator
      [UI (TypeNewEmployeeId value); UI SubmitAddForm; UI (TypeNewEmployeeId later);
       Settle (length (pending m)) (FetchSettled (Resolved response))] m = Some m' /\
    requests_of (log m') =
      requests_of (log m) ++ post_employee value :: map get cycle_reads /\
    showAddEmployee (ui m') = false /\
    newEmployeeId (ui m') = "" /\
    pending m' = pending m ++ [fetchData_suspended].
Proof.
  intros Hok. cbn [exec step on_event run perform ui set_ui with_newEmployeeId newEmployeeId].
  unfold addEmployee. cbn [run perform].
  erewrite settle_last; [|reflexivity|reflexivity].
  cbv beta iota. rewrite Hok.
  eexists; split; [reflexivity|].
  cbn. rewrite !requests_of_app. cbn. rewrite <- !app_assoc. done.
Qed.

(** Selecting a tab, opening or cancelling the add form, typing into
    it, and entering or leaving edit mode are local: no effect is
    logged (no request in particular), no call is left pending, the
    timer and the Snapshot are not touched. *)
Theorem local_events_stay_local (ev : UIEvent) (m : Machine) :
  local_event ev = true ->
  log (run operator (on_event (ui m) ev) m) = log m /\
  pending (run operator (on_event (ui m) ev) m) = pending m /\
  interval (run operator (on_event (ui m) ev) m) = interval m /\
  snapshot (ui (run operator (on_event (ui m) ev) m)) = snapshot (ui m) /\
  loading (ui (run operator (on_event (ui m) ev) m)) = loading (ui m).
Proof. by destruct ev. Qed.
End MoreWrites.

(** ** A write and its refresh *)

Section WriteThenRefresh.
Variable operator : string -> bool.

(** Refresh after write: for every write that refreshes, once its
    success response has arrived and the four reads of the cycle it
    started have succeeded and been read, with nothing else scheduled
    in between, the page shows exactly what the server delivered,
    whatever it showed before and whatever was sent, and the calls of
    the write and of its refresh are both over. *)
Theorem refresh_shows_what_the_server_delivers
    (w : Write) (response : Response ErrorBody)
    (sd : StatsData) (es : list Employee) (c : Config) (ls : list LogEntry)
    (m : Machine) :
  (forall prompt, operator prompt = true) ->
  ok response = true ->
  w <> TriggerRun ->
  exists m1 m2,
    settle operator (length (pending m)) (FetchSettled (Resolved response))
      (run operator (write_handler w) m) = Some m1 /\
    settle operator (length (pending m)) (AllSettled (all_succeed sd es c ls)) m1
      = Some m2 /\
    snapshot (ui (read_bodies operator 4 (length (pending m)) m2))
      = delivered sd es c ls /\
    pending (read_bodies operator 4 (length (pending m)) m2) = pending m.
Proof.
  intros Hyes Hok Hw.
  destruct w; [| | | |done]; cbn [write_handler];
    unfold addEmployee, updateEmployee, deleteEmployee, updateConfig;
    cbn [run]; rewrite ?Hyes; cbn [negb run];
    (erewrite settle_parked; [|reflexivity|reflexivity]);
    cbv beta iota; rewrite Hok;
    do 2 eexists; (split; [reflexivity|]);
    (split; [cbn [run fetchData perform];
             eapply settle_last; reflexivity|]);
    unfold fetchData_settled, fetchData_apply, when_ok, await_json, all_succeed, success;
    cbn -[read_bodies];
    do 4 (rewrite read_bodies_parked by reflexivity; cbn [run perform]);
    rewrite read_bodies_finished by (cbn; lia);
    split; reflexivity.
Qed.
End WriteThenRefresh.

(** ** One row at a time *)

Lemma row_in_edit_mode_target (st : State) (e : Employee) :
  row_in_edit_mode st e = true <-> editingEmployee st = Some (id e).
Proof.
  unfold row_in_edit_mode. destruct (editingEmployee st) as [target|]; [|done].
  rewrite String.eqb_eq. split; [by intros ->|by intros [= ->]].
Qed.

Lemma rows_in_edit_mode_bound (st : State) (l : list Employee) :
  NoDup (map id l) ->
  length (filter (fun e => row_in_edit_mode st e = true) l) <= 1.
Proof.
  induction l as [|e l IH]; [cbn; lia|].
  cbn [map]. intros [Hnotin Hnodup]%NoDup_cons.
  destruct (decide (row_in_edit_mode st e = true)) as [He|He].
  - rewrite filter_cons_True by done.
    rewrite no_edit_row_without_target; [cbn; lia|].
    apply Forall_forall. intros e' He' Heq.
    apply row_in_edit_mode_target in He. rewrite He in Heq.
    injection Heq as Heq. apply Hnotin. rewrite <- Heq.
    by apply list_elem_of_fmap_2.
  - rewrite filter_cons_False by done. by apply IH.
Qed.

(** When the employees listed have distinct ids, at most one row of
    the table is rendered in edit mode. *)
Theorem at_most_one_row_in_edit_mode (st : State) :
  NoDup (map id (employees st)) -> length (rows_in_edit_mode st) <= 1.
Proof. apply rows_in_edit_mode_bound. Qed.

(** ** Concrete runs

    The statements above at sample inputs, and the runs on which the
    component departs from its specification. *)

(** [editing_a] is a page the component can be in. *)
Lemma editing_a_is_reachable :
  let reached :=
    exec accepts
      [Mount;
       Settle 0 (AllSettled
         {| statsOut := Resolved failure; employeesOut := Resolved (success [emp_a; emp_b]);
            configOut := Resolved failure; logsOut := Resolved failure |});
       Settle 0 BodyRead;
       UI (BeginEdit emp_a)]
      boot in
  observe (fun st => st) reached = Some (ui editing_a) /\
  parked reached = Some 0 /\
  match reached with Some m => interval m | None => None end = interval editing_a.
Proof. repeat split; vm_compute; reflexivity. Qed.

Lemma transport_failure_retains_snapshot_witness :
  exists m',
    cycle accepts
      {| statsOut := Resolved (success sample_stats);
         employeesOut := Rejected;
         configOut := Resolved (success sample_config);
         logsOut := Resolved (success []) |} boot = Some m' /\
    snapshot (ui m') = snapshot (ui boot) /\
    ui m' = with_loading false (ui boot) /\
    pending m' = pending boot.
Proof.
  apply (transport_failure_retains_snapshot accepts _ boot). right. left. reflexivity.
Defined.

Lemma partial_failure_isolation_witness :
  exists m',
    cycle accepts (settled_as sample_responses) editing_a = Some m' /\
    pending m' = [] /\
    stats (ui m') =
      {| total_employees := 7%Q; active_employees := 5%Q;
         last_run := Some "2024-05-01T06:30:00"; next_run := None;
         total_hours_added_this_week := (5 # 2)%Q;
         total_hours_added_this_month := 0%Q |} /\
    employees (ui m') = [emp_a; emp_b] /\
    config (ui m') = Some sample_config /\
    logs (ui m') = [] /\
    total_employees (stats (ui m')) = 7%Q /\
    last_run (stats (ui m')) = Some "2024-05-01T06:30:00".
Proof.
  assert (readable (statsRes sample_responses)) as Hrs by (intros _; by eexists).
  assert (readable (employeesRes sample_responses)) as Hre by (intros Hok; discriminate Hok).
  assert (readable (configRes sample_responses)) as Hrc by (intros _; by eexists).
  assert (readable (logsRes sample_responses)) as Hrl by (intros _; by eexists).
  pose proof (partial_failure_isolation accepts sample_responses editing_a
                eq_refl Hrs Hre Hrc Hrl)
    as (m' & Hcycle & Hpending & Hstats & Hemployees & Hconfig & Hlogs & Hreach).
  exists m'. split; [exact Hcycle|]. split; [exact Hpending|].
  destruct Hstats as (sv & Hsv & Hs). injection Hsv as <-.
  destruct Hconfig as (cv & Hcv & Hc). injection Hcv as <-.
  destruct Hlogs as (lv & Hlv & Hl). injection Hlv as <-.
  split; [exact Hs|]. split; [exact Hemployees|].
  split; [exact Hc|]. split; [exact Hl|].
  destruct (Hreach sample_stats eq_refl eq_refl) as ((Htotal & _) & _ & (Hlast & _) & _).
  split; [apply Htotal | apply Hlast]; discriminate.
Defined.

Lemma refresh_after_successful_write_witness :
  reads_of (log (run accepts (write_handler (DeleteEmployee "emp-a")) editing_a))
    = reads_of (log editing_a) /\
  exists m',
    settle accepts (length (pending editing_a)) (FetchSettled (Resolved accepted))
      (run accepts (write_handler (DeleteEmployee "emp-a")) editing_a) = Some m' /\
    reads_of (log m') = reads_of (log editing_a) ++ cycle_reads /\
    pending m' = pending editing_a ++ [fetchData_suspended].
Proof.
  apply (refresh_after_successful_write accepts (DeleteEmployee "emp-a") accepted editing_a);
    reflexivity.
Defined.

(** C3 as stated fails for trigger-run: the operator confirms, the
    POST to [/api/trigger-update] is answered with a 2xx, and the
    handler ends with an alert; no read is issued and no call is
    pending, so no fetch cycle was started. *)
Lemma trigger_run_success_starts_no_cycle :
  let after :=
    settle accepts 0 (FetchSettled (Resolved accepted))
      (run accepts (write_handler TriggerRun) boot) in
  logged (fun l => l) after
    = Some [EConfirm trigger_prompt true; EFetch post_trigger_update;
            EAlert "Aktualizacja została uruchomiona!"] /\
  logged reads_of after = Some [] /\
  parked after = Some 0.
Proof. repeat split; vm_compute; reflexivity. Qed.

(** C4 at a failing input. The PATCH of [updateEmployee] is answered
    with a non-2xx carrying [{detail: "Employee not found"}]: the
    handler ends without any alert, the log holds the request and
    nothing else. The same answer to the POST of [addEmployee] is
    shown to the operator. *)
Theorem patch_failure_is_not_surfaced :
  let patched :=
    exec accepts
      [UI (ToggleActive emp_b);
       Settle 0 (FetchSettled (Resolved (refused "Employee not found")))]
      editing_a in
  let added :=
    exec accepts
      [UI SubmitAddForm;
       Settle 0 (FetchSettled (Resolved (refused "Employee not found")));
       Settle 0 BodyRead]
      editing_a in
  logged (fun l => l) patched
    = Some [EFetch (patch_employee "emp-b"
              {| upd_multiplier := None; upd_active := Some true |})] /\
  logged alerts_of patched = Some [] /\
  parked patched = Some 0 /\
  observe (fun st => st) patched = Some (ui editing_a) /\
  logged alerts_of added
    = Some ["Nie można dodać pracownika: Employee not found"] /\
  parked added = Some 0 /\
  observe (fun st => st) added = Some (ui editing_a).
Proof. repeat split; vm_compute; reflexivity. Qed.

Lemma failed_write_changes_nothing_witness :
  exists m1 m',
    settle accepts (length (pending editing_a))
      (FetchSettled (Resolved (refused "Employee not found")))
      (run accepts (write_handler (PutConfig other_config)) editing_a) = Some m1 /\
    read_bodies accepts 1 (length (pending editing_a)) m1 = m' /\
    ui m' = ui editing_a /\ pending m' = pending editing_a /\
    interval m' = interval editing_a /\
    reads_of (log m') = reads_of (log editing_a) /\
    alerts_of (log m') = alerts_of (log editing_a) ++ [].
Proof.
  apply (failed_write_changes_nothing accepts (PutConfig other_config)
           (refused "Employee not found") editing_a); reflexivity.
Defined.

(** C5 as stated fails: row [emp_a] is being edited, the operator
    toggles [active] on the other row [emp_b], the PATCH succeeds, and
    the edit target is [null] afterwards. *)
Lemma toggle_of_other_row_ends_edit :
  let after :=
    exec accepts
      [UI (ToggleActive emp_b); Settle 0 (FetchSettled (Resolved accepted))]
      editing_a in
  editingEmployee (ui editing_a) = Some (id emp_a) /\
  id emp_b <> id emp_a /\
  logged requests_of after
    = Some [patch_employee "emp-b" {| upd_multiplier := None; upd_active := Some true |};
            get ApiStats; get ApiEmployees; get ApiConfig; get (ApiLogs 50)] /\
  observe editingEmployee after = Some None /\
  observe rows_in_edit_mode after = Some [].
Proof.
  split; [reflexivity|]. split; [discriminate|].
  repeat split; vm_compute; reflexivity.
Qed.

(** C6 as stated fails: [emp_a] is being edited, a cycle delivers an
    employee list without it, and the edit target is still [emp_a]
    afterwards; when a later cycle lists [emp_a] again its row is
    rendered in edit mode. *)
Lemma stale_edit_target_survives_refresh :
  let gone :=
    cycle accepts (all_succeed sample_stats [emp_b] sample_config []) editing_a in
  let back :=
    match gone with
    | Some m => cycle accepts (all_succeed sample_stats [emp_a; emp_b] sample_config []) m
    | None => None
    end in
  editingEmployee (ui editing_a) = Some "emp-a" /\
  observe employees gone = Some [emp_b] /\
  observe editingEmployee gone = Some (Some "emp-a") /\
  observe rows_in_edit_mode gone = Some [] /\
  observe rows_in_edit_mode back = Some [emp_a].
Proof. repeat split; vm_compute; reflexivity. Qed.

Lemma destructive_actions_ask_first_witness :
  run declines (deleteEmployee "emp-a") editing_a
    = emit (EConfirm delete_prompt false) editing_a /\
  run declines triggerUpdate editing_a
    = emit (EConfirm trigger_prompt false) editing_a.
Proof.
  destruct (destructive_actions_ask_first declines "emp-a" editing_a)
    as [(_ & _ & Hdelete) (_ & _ & Htrigger)].
  split; [apply Hdelete | apply Htrigger]; reflexivity.
Defined.

(** C8 as stated fails: with the input empty, submitting the add form
    issues the POST with [{employee_id: ""}]. *)
Lemma empty_identifier_is_posted :
  newEmployeeId (ui boot) = "" /\
  requests_of (log (run accepts (on_event (ui boot) SubmitAddForm) boot))
    = [{| method := POST; endpoint := ApiEmployees;
          headers := [Authorization; ContentTypeJson];
          body := EmployeeIdBody "" |}].
Proof. split; reflexivity. Qed.

Lemma stop_only_clears_the_timer_witness :
  exists stopped,
    step accepts Cleanup (run accepts useEffect_body boot) = Some stopped /\
    interval stopped = None /\
    pending stopped = [fetchData_suspended] /\
    exec_calls accepts
      (Settle 0 (AllSettled (all_succeed sample_stats [emp_a; emp_b] sample_config []))
         :: replicate 4 (Settle 0 BodyRead)) stopped
    = Some [SetStats (stats_of_data sample_stats); SetEmployees [emp_a; emp_b];
            SetConfig (Some sample_config); SetLogs []; SetLoading false].
Proof.
  destruct (stop_only_clears_the_timer accepts [Mount]
              (run accepts useEffect_body boot) eq_refl)
    as (stopped & Hstep & _ & _ & Hpending & Hinterval & _ & _ & _ & Hcycle).
  exists stopped. split; [exact Hstep|]. split; [exact Hinterval|].
  split; [exact Hpending|].
  exact (proj1 (Hcycle 0 sample_stats [emp_a; emp_b] sample_config [] eq_refl)).
Defined.

(** C9 as stated fails in both halves, seen on the calls the code
    makes.  First run: the page is shown, the operator toggles
    [emp_b], the cleanup stops the scheduler while the PATCH is in
    flight, and the PATCH is then answered with a 2xx; after
    [clearInterval] the handler calls [fetchData], which issues the
    four reads.  Second run: the effect is mounted and stopped while
    its first cycle is in flight; when the four reads then succeed the
    code calls the five setters with what was fetched. *)
Lemma fetches_and_setter_calls_after_stop :
  let first_cycle :=
    [Mount;
     Settle 0 (AllSettled (all_succeed sample_stats [emp_a; emp_b] sample_config []));
     Settle 0 BodyRead; Settle 0 BodyRead; Settle 0 BodyRead; Settle 0 BodyRead] in
  let toggle := patch_employee "emp-b" {| upd_multiplier := None; upd_active := Some true |} in
  let fetched :=
    {| total_employees := 7%Q; active_employees := 5%Q;
       last_run := Some "2024-05-01T06:30:00"; next_run := None;
       total_hours_added_this_week := (5 # 2)%Q;
       total_hours_added_this_month := 0%Q |} in
  exec_calls accepts
    [UI (ToggleActive emp_b); Cleanup; Settle 0 (FetchSettled (Resolved accepted))]
    (default boot (exec accepts first_cycle boot))
  = Some [Fetch toggle;
          ClearInterval;
          SetEditingEmployee None;
          Fetch (get ApiStats); Fetch (get ApiEmployees); Fetch (get ApiConfig);
          Fetch (get (ApiLogs 50))] /\
  exec_calls accepts
    [Mount; Cleanup;
     Settle 0 (AllSettled (all_succeed sample_stats [emp_a; emp_b] sample_config []));
     Settle 0 BodyRead; Settle 0 BodyRead; Settle 0 BodyRead; Settle 0 BodyRead]
    boot
  = Some [Fetch (get ApiStats); Fetch (get ApiEmployees); Fetch (get ApiConfig);
          Fetch (get (ApiLogs 50)); SetInterval 30000;
          ClearInterval;
          SetStats fetched; SetEmployees [emp_a; emp_b];
          SetConfig (Some sample_config); SetLogs []; SetLoading false].
Proof. split; vm_compute; reflexivity. Qed.

(** C10 as stated fails: a first cycle has completed and [loading] is
    off; the timer fires, the four reads of the second cycle succeed
    and its first body is read. The page now shows the stats of the
    second cycle next to the employee list, the config and the logs of
    the first: a Snapshot that is neither the initial one, nor the
    first cycle's result, nor the second's. *)
Lemma hybrid_snapshot_is_observable :
  let first_cycle :=
    [Mount; Settle 0 (AllSettled (all_succeed sample_stats [emp_a] sample_config []));
     Settle 0 BodyRead; Settle 0 BodyRead; Settle 0 BodyRead; Settle 0 BodyRead] in
  let second_cycle_begun :=
    [Tick;
     Settle 0 (AllSettled (all_succeed other_stats [emp_a; emp_b] other_config [sample_log]));
     Settle 0 BodyRead] in
  let hybrid :=
    {| snap_stats := stats_of_data other_stats; snap_employees := [emp_a];
       snap_config := Some sample_config; snap_logs := [] |} in
  observe snapshot (exec accepts first_cycle boot)
    = Some (delivered sample_stats [emp_a] sample_config []) /\
  parked (exec accepts first_cycle boot) = Some 0 /\
  observe loading (exec accepts (first_cycle ++ second_cycle_begun) boot) = Some false /\
  observe snapshot (exec accepts (first_cycle ++ second_cycle_begun) boot) = Some hybrid /\
  hybrid <> snapshot initial_state /\
  hybrid <> delivered sample_stats [emp_a] sample_config [] /\
  hybrid <> delivered other_stats [emp_a; emp_b] other_config [sample_log].
Proof.
  repeat split; try (vm_compute; reflexivity); discriminate.
Qed.

Lemma trailing_slash_is_insignificant_witness :
  API_URL (Some "https://hours.example.org") = "https://hours.example.org" /\
  API_URL (Some "https://hours.example.org/") = "https://hours.example.org" /\
  API_URL (Some "https://hours.example.org//") = "https://hours.example.org/" /\
  forall e,
    url (API_URL (Some "https://hours.example.org/")) e
    = url (API_URL (Some "https://hours.example.org")) e.
Proof.
  apply (trailing_slash_is_insignificant "https://hours.example.org");
    [discriminate | reflexivity].
Defined.

Lemma only_page_requests_are_issued_witness :
  let mounted := run accepts useEffect_body boot in
  let m := run accepts (on_event (ui mounted) (ClickDelete emp_b)) mounted in
  Forall (fun req => ui_request req = true) (requests_of (log m)) /\
  Forall (fun req => authorized req = true) (requests_of (log m)) /\
  Forall (fun req => endpoint req <> ApiTriggerUpdate) (requests_of (log m)).
Proof.
  apply (only_page_requests_are_issued accepts [Mount; UI (ClickDelete emp_b)]).
  reflexivity.
Defined.

Lemma spinner_never_returns_witness :
  loading (ui (run accepts fetchData offline_page)) = false.
Proof.
  apply (spinner_never_returns accepts
           [Mount;
            Settle 0 (AllSettled {| statsOut := Rejected; employeesOut := Rejected;
                                    configOut := Rejected; logsOut := Rejected |})]
           [Tick] offline_page);
    vm_compute; reflexivity.
Defined.

Lemma timestamps_are_never_empty_witness :
  last_run (stats (ui blank_stats_page)) <> Some "" /\
  next_run (stats (ui blank_stats_page)) <> Some "".
Proof.
  apply (timestamps_are_never_empty accepts
           [Mount; Settle 0 (AllSettled (all_succeed blank_stats [] sample_config []));
            Settle 0 BodyRead]).
  vm_compute. reflexivity.
Defined.

Lemma unreadable_body_aborts_the_cycle_witness :
  exists m',
    cycle accepts
      (settled_as {| statsRes := success sample_stats;
                     employeesRes := {| ok := true; json := None |};
                     configRes := success sample_config;
                     logsRes := success [sample_log] |}) editing_a = Some m' /\
    employees (ui m') = employees (ui editing_a) /\
    config (ui m') = config (ui editing_a) /\
    logs (ui m') = logs (ui editing_a).
Proof.
  destruct (unreadable_body_aborts_the_cycle accepts
              {| statsRes := success sample_stats;
                 employeesRes := {| ok := true; json := None |};
                 configRes := success sample_config;
                 logsRes := success [sample_log] |} editing_a)
    as (m' & Hcycle & _ & Hemployees & _).
  exists m'. split; [exact Hcycle|]. apply Hemployees. reflexivity.
Defined.

Lemma unanswered_ticks_pile_up_witness :
  exists m',
    exec accepts (replicate 3 Tick) editing_a = Some m' /\
    pending m' = pending editing_a ++ replicate 3 fetchData_suspended /\
    reads_of (log m') = reads_of (log editing_a) ++ concat (replicate 3 cycle_reads) /\
    ui m' = ui editing_a /\
    interval m' = Some poll_interval.
Proof.
  apply (unanswered_ticks_pile_up accepts 3 editing_a poll_interval). reflexivity.
Defined.

Lemma rejected_write_changes_nothing_witness :
  exists m',
    settle accepts (length (pending editing_a)) (FetchSettled Rejected)
      (run accepts (write_handler (AddEmployee "emp-c")) editing_a) = Some m' /\
    ui m' = ui editing_a /\ pending m' = pending editing_a /\
    interval m' = interval editing_a /\
    reads_of (log m') = reads_of (log editing_a) /\
    errors_of (log m') = errors_of (log editing_a) ++ ["Error adding employee:"] /\
    alerts_of (log m') = alerts_of (log editing_a) ++ ["Błąd połączenia z serwerem."].
Proof.
  apply (rejected_write_changes_nothing accepts (AddEmployee "emp-c") editing_a).
  reflexivity.
Defined.

Lemma successful_write_is_not_optimistic_witness :
  exists m',
    settle accepts (length (pending editing_a)) (FetchSettled (Resolved accepted))
      (run accepts (write_handler (DeleteEmployee "emp-b")) editing_a) = Some m' /\
    snapshot (ui m') = snapshot (ui editing_a) /\
    loading (ui m') = loading (ui editing_a) /\
    activeTab (ui m') = activeTab (ui editing_a) /\
    showAddEmployee (ui m') = showAddEmployee (ui editing_a) /\
    newEmployeeId (ui m') = newEmployeeId (ui editing_a) /\
    editingEmployee (ui m') = editingEmployee (ui editing_a).
Proof.
  apply (successful_write_is_not_optimistic accepts (DeleteEmployee "emp-b")
           accepted editing_a); reflexivity.
Defined.

Lemma input_typed_in_flight_is_discarded_witness :
  exists m',
    exec accepts
      [UI (TypeNewEmployeeId "emp-c"); UI SubmitAddForm; UI (TypeNewEmployeeId "emp-d");
       Settle (length (pending editing_a)) (FetchSettled (Resolved accepted))]
      editing_a = Some m' /\
    requests_of (log m') =
      requests_of (log editing_a) ++ post_employee "emp-c" :: map get cycle_reads /\
    showAddEmployee (ui m') = false /\
    newEmployeeId (ui m') = "" /\
    pending m' = pending editing_a ++ [fetchData_suspended].
Proof.
  apply (input_typed_in_flight_is_discarded accepts "emp-c" "emp-d" accepted editing_a).
  reflexivity.
Defined.

Lemma local_events_stay_local_witness :
  log (run accepts (on_event (ui editing_a) CancelEdit) editing_a) = log editing_a /\
  pending (run accepts (on_event (ui editing_a) CancelEdit) editing_a) = pending editing_a /\
  interval (run accepts (on_event (ui editing_a) CancelEdit) editing_a)
    = interval editing_a /\
  snapshot (ui (run accepts (on_event (ui editing_a) CancelEdit) editing_a))
    = snapshot (ui editing_a) /\
  loading (ui (run accepts (on_event (ui editing_a) CancelEdit) editing_a))
    = loading (ui editing_a).
Proof.
  apply (local_events_stay_local accepts CancelEdit editing_a). reflexivity.
Defined.

Lemma at_most_one_row_in_edit_mode_witness :
  length (rows_in_edit_mode (ui editing_a)) <= 1.
Proof.
  apply (at_most_one_row_in_edit_mode (ui editing_a)).
  apply (bool_decide_unpack _). vm_compute. reflexivity.
Defined.

Lemma refresh_shows_what_the_server_delivers_witness :
  exists m1 m2,
    settle accepts (length (pending editing_a)) (FetchSettled (Resolved accepted))
      (run accepts
         (write_handler
            (PatchEmployee "emp-a" {| upd_multiplier := Some 5%Q; upd_active := None |}))
         editing_a) = Some m1 /\
    settle accepts (length (pending editing_a))
      (AllSettled (all_succeed sample_stats [emp_a_raised; emp_b] sample_config []))
      m1 = Some m2 /\
    snapshot (ui (read_bodies accepts 4 (length (pending editing_a)) m2))
      = delivered sample_stats [emp_a_raised; emp_b] sample_config [] /\
    pending (read_bodies accepts 4 (length (pending editing_a)) m2) = pending editing_a.
Proof.
  apply (refresh_shows_what_the_server_delivers accepts
           (PatchEmployee "emp-a" {| upd_multiplier := Some 5%Q; upd_active := None |})
           accepted sample_stats [emp_a_raised; emp_b] sample_config [] editing_a);
    [reflexivity | reflexivity | discriminate].
Defined.
